(** * Workflow automation agent: planner, executor, tool registry, memory store

    A shallow embedding of [app/models.py], [app/tools.py], [app/agent.py]
    and [app/memory.py], followed by the properties of the planner, the
    short-circuiting executor and the two retrieval modes of the memory
    store.

    Conventions of the embedding:
    - a Python [str] is a [string]; a character is read as the code point
      of the same number (0..255);
    - a Python [int] is a [Z]; a Python [float] is a binary64 [float];
    - a [dict] with string keys is a [gmap string _]; a [list] is a [list];
    - a method that reads or writes [self] takes [self] and returns the new
      [self] next to its result;
    - everything outside the process (files, database, clock, random
      source) is a world [W] that tool handlers, [uuid4] and [utcnow]
      thread through. *)

From Stdlib Require Import ZArith Floats Ascii String.
From stdpp Require Import base gmap strings list fin_maps pretty sorting.

#[local] Set Warnings "-register-all".

Local Open Scope string_scope.
Local Open Scope Z_scope.
Local Open Scope list_scope.

(** ** Python values and strings *)

(** The JSON-like values stored under [dict[str, Any]]. *)
Inductive Value : Type :=
| VNone
| VBool (b : bool)
| VInt (z : Z)
| VFloat (f : float)
| VStr (s : string)
| VList (l : list Value)
| VDict (d : gmap string Value).

(** [dict.get(key, default)]. *)
Definition get (d : gmap string Value) (key : string) (default : Value) : Value :=
  match d !! key with
  | Some v => v
  | None => default
  end.

(** Truth value of an object, as [if x:] and [not x] test it. *)
Definition truthy (v : Value) : bool :=
  match v with
  | VNone => false
  | VBool b => b
  | VInt z => negb (z =? 0)
  | VFloat f => negb (PrimFloat.eqb f 0%float)
  | VStr s => negb (String.eqb s "")
  | VList l => match l with [] => false | _ => true end
  | VDict d => negb (bool_decide (d = ∅))
  end.

Definition code (c : ascii) : N := N_of_ascii c.

(** [str.lower] on one character: [A-Z] and the upper-case letters of
    Latin-1 ([U+00C0]..[U+00DE] but the multiplication sign) move up by 32. *)
Definition lower_char (c : ascii) : ascii :=
  let n := code c in
  if ((65 <=? n) && (n <=? 90))%N then ascii_of_N (n + 32)
  else if ((192 <=? n) && (n <=? 222) && negb (n =? 215))%N then ascii_of_N (n + 32)
  else c.

Fixpoint lower (s : string) : string :=
  match s with
  | EmptyString => EmptyString
  | String c s' => String (lower_char c) (lower s')
  end.

(** [needle in hay] on strings: some suffix of [hay] starts with [needle]. *)
Fixpoint contains (needle hay : string) : bool :=
  String.prefix needle hay ||
  match hay with
  | EmptyString => false
  | String _ hay' => contains needle hay'
  end.

(** ** Data model ([app/models.py]) *)

Inductive TaskStatus : Type := pending | running | completed | failed.

(** [TaskStatus.value]: the enum is a [str] enum. *)
Definition TaskStatus_value (s : TaskStatus) : string :=
  match s with
  | pending => "pending"
  | running => "running"
  | completed => "completed"
  | failed => "failed"
  end.

Module ActionStep.
Record t : Type := mk {
  tool : string;
  description : string;
  arguments : gmap string Value }.
End ActionStep.

Module ExecuteRequest.
Record t : Type := mk {
  user_id : string;
  instruction : string;
  context : gmap string Value }.
End ExecuteRequest.

Module ToolResult.
Record t : Type := mk {
  tool : string;
  ok : bool;
  message : string;
  payload : gmap string Value }.

(** [model_dump()]: the plain [dict] of the four fields. *)
Definition model_dump (r : t) : gmap string Value :=
  <["tool" := VStr (tool r)]>
  (<["ok" := VBool (ok r)]>
  (<["message" := VStr (message r)]>
  (<["payload" := VDict (payload r)]> ∅))).
End ToolResult.

Module ExecuteResponse.
Record t : Type := mk {
  task_id : string;
  status : TaskStatus;
  plan : list ActionStep.t;
  outputs : list (gmap string Value);
  summary : string }.
End ExecuteResponse.

Module TaskRecord.
Record t : Type := mk {
  task_id : string;
  user_id : string;
  instruction : string;
  status : TaskStatus;
  plan : list ActionStep.t;
  outputs : list (gmap string Value);
  created_at : Z;
  updated_at : Z }.
End TaskRecord.

Inductive MemoryKind : Type := conversation | task | note.

Module MemoryEntry.
Record t : Type := mk {
  kind : MemoryKind;
  user_id : string;
  text : string;
  metadata : gmap string Value;
  created_at : Z }.
End MemoryEntry.

(** A result that reports success. *)
Definition reports_ok (r : ToolResult.t) : Prop := ToolResult.ok r = true.

(** ** Outcomes of calls that may raise *)

Inductive outcome (A : Type) : Type :=
| Returns (a : A)
| Raises (exn : string).
Arguments Returns {A} a.
Arguments Raises {A} exn.

#[global] Instance outcome_ret : MRet outcome := fun _ a => Returns a.
#[global] Instance outcome_bind : MBind outcome := fun _ _ k m =>
  match m with
  | Returns a => k a
  | Raises exn => Raises exn
  end.

(** ** Python numbers *)

(** [float(z)] as the interpreter converts an [int]: the nearest binary64
    value, ties to even, and [OverflowError] when that value is not
    finite. *)
Definition float_of_int (z : Z) : outcome float :=
  match binary_normalize prec emax z 0 false with
  | S754_infinity _ => Raises "OverflowError"
  | x => Returns (SF2Prim x)
  end.

(** [math.sqrt(z)] for an [int] argument: convert, reject a negative
    number, take the correctly rounded square root. *)
Definition math_sqrt (z : Z) : outcome float :=
  x ← float_of_int z;
  if (x <? 0)%float then Raises "ValueError" else Returns (PrimFloat.sqrt x).

(** [z / y] for an [int] and a [float]. *)
Definition truediv (z : Z) (y : float) : outcome float :=
  x ← float_of_int z;
  if (y =? 0)%float then Raises "ZeroDivisionError" else Returns (x / y)%float.

(** *** Ranges of binary64 values, used to state the properties below *)

(** The positive values from 1.0 upwards, infinity included: a 53-bit
    mantissa with exponent at least -52. *)
Definition at_least_one (x : spec_float) : Prop :=
  x = S754_infinity false
  \/ exists m e, x = S754_finite false m e
                 /\ Zdigits2 (Z.pos m) = 53 /\ -52 <= e <= 971.

(** The values with sign bit 0, NaN excluded. *)
Definition non_negative (x : spec_float) : Prop :=
  match x with
  | S754_zero s | S754_infinity s | S754_finite s _ _ => s = false
  | S754_nan => False
  end.


(** [sum(...)] over integers. *)
Definition sum (l : list Z) : Z := foldr Z.add 0 l.

(** ** Memory store ([app/memory.py]) *)

Record MemoryStore : Type := { entries : list MemoryEntry.t }.

Definition add (self : MemoryStore) (entry : MemoryEntry.t) : MemoryStore :=
  {| entries := entries self ++ [entry] |}.

(** The slice [l[start:]]: a negative [start] counts from the end, and
    both ends are clipped to the list. *)
Definition slice_from {A : Type} (l : list A) (start : Z) : list A :=
  let n := Z.of_nat (length l) in
  let i := if start <? 0 then Z.max 0 (start + n) else Z.min start n in
  drop (Z.to_nat i) l.

(** The slice [l[:stop]]. *)
Definition slice_to {A : Type} (l : list A) (stop : Z) : list A :=
  let n := Z.of_nat (length l) in
  let j := if stop <? 0 then Z.max 0 (stop + n) else Z.min stop n in
  take (Z.to_nat j) l.

Definition recent (self : MemoryStore) (user_id : string) (limit : Z)
  : list MemoryEntry.t :=
  let candidates :=
    filter (fun e => MemoryEntry.user_id e = user_id) (entries self) in
  slice_from candidates (- limit).

(** The characters [str.split()] separates on, among the code points up
    to 255. *)
Definition isspace (c : ascii) : bool :=
  let n := code c in
  (((9 <=? n) && (n <=? 13)) || ((28 <=? n) && (n <=? 32))
   || (n =? 133) || (n =? 160))%N.

(** [text.split()]: the maximal runs of non-space characters, [cur] being
    the run read so far. *)
Fixpoint split_from (cur : string) (text : string) : list string :=
  match text with
  | EmptyString => if String.eqb cur "" then [] else [cur]
  | String c rest =>
      if isspace c
      then (if String.eqb cur "" then split_from "" rest
            else cur :: split_from "" rest)
      else split_from (cur +:+ String c "") rest
  end.

Definition split (text : string) : list string := split_from "" text.

Fixpoint mem_char (c : ascii) (chars : string) : bool :=
  match chars with
  | EmptyString => false
  | String d chars' => Ascii.eqb c d || mem_char c chars'
  end.

Fixpoint lstrip (chars s : string) : string :=
  match s with
  | EmptyString => EmptyString
  | String c s' => if mem_char c chars then lstrip chars s' else s
  end.

Fixpoint rstrip (chars s : string) : string :=
  match s with
  | EmptyString => EmptyString
  | String c s' =>
      match rstrip chars s' with
      | EmptyString => if mem_char c chars then EmptyString else String c EmptyString
      | r => String c r
      end
  end.

(** [s.strip(chars)]. *)
Definition strip (chars s : string) : string := rstrip chars (lstrip chars s).

(** The argument of [strip] in [_vectorize]: [.,!?;:], the double quote,
    the single quote and the three pairs of brackets. *)
Definition punctuation : string :=
  ".,!?;:" +:+ String (ascii_of_N 34) "'()[]{}".

(** [Counter(tokens)]. *)
Definition Counter (tokens : list string) : gmap string Z :=
  foldl (fun c t => <[t := default 0 (c !! t) + 1]> c) ∅ tokens.

Definition _vectorize (text : string) : gmap string Z :=
  let tokens := (fun t => lower (strip punctuation t)) <$> split text in
  Counter (filter (fun t => t ≠ "") tokens).

(** [sum(a[token] * b.get(token, 0) for token in a)]. *)
Definition dot (a b : gmap string Z) : Z :=
  sum ((fun '(token, v) => v * default 0 (b !! token)) <$> map_to_list a).

(** [sum(v * v for v in a.values())]. *)
Definition sum_squares (a : gmap string Z) : Z :=
  sum ((fun '(_, v) => v * v) <$> map_to_list a).

Definition _cosine (a b : gmap string Z) : outcome float :=
  if bool_decide (a = ∅) || bool_decide (b = ∅) then Returns 0%float
  else
    let dot := dot a b in
    norm_a ← math_sqrt (sum_squares a);
    norm_b ← math_sqrt (sum_squares b);
    if (norm_a =? 0)%float || (norm_b =? 0)%float then Returns 0%float
    else truediv dot (norm_a * norm_b)%float.

(** A frequency vector: no count is negative. *)
Definition counts_nonneg (a : gmap string Z) : Prop :=
  map_Forall (fun _ v => 0 <= v) a.

(** [scored.sort(key=lambda x: x[0], reverse=True)]: the sort of the
    interpreter is stable and compares keys with [<] only; on keys that
    [<] orders totally every stable sort returns this list. *)
Fixpoint insert_desc {A : Type} (x : float * A) (l : list (float * A))
  : list (float * A) :=
  match l with
  | [] => [x]
  | y :: l' => if (fst x <? fst y)%float then y :: insert_desc x l' else x :: l
  end.

Definition sort_desc {A : Type} (l : list (float * A)) : list (float * A) :=
  foldr insert_desc [] l.

(** The [for entry in self.entries] loop of [semantic_search]. *)
Fixpoint score_entries (user_id : string) (query_vector : gmap string Z)
    (entries : list MemoryEntry.t) (scored : list (float * MemoryEntry.t))
  : outcome (list (float * MemoryEntry.t)) :=
  match entries with
  | [] => Returns scored
  | entry :: rest =>
      if bool_decide (MemoryEntry.user_id entry ≠ user_id)
      then score_entries user_id query_vector rest scored
      else
        score ← _cosine query_vector (_vectorize (MemoryEntry.text entry));
        if (0 <? score)%float
        then score_entries user_id query_vector rest (scored ++ [(score, entry)])
        else score_entries user_id query_vector rest scored
  end.

Definition semantic_search (self : MemoryStore) (user_id query : string)
    (limit : Z) : outcome (list MemoryEntry.t) :=
  let query_vector := _vectorize query in
  scored ← score_entries user_id query_vector (entries self) [];
  let scored := sort_desc scored in
  Returns (snd <$> slice_to scored limit).

(** *** Reference notions for the similarity search *)

(** The score of an entry against a query, as the loop computes it. *)
Definition score (query : string) (entry : MemoryEntry.t) : outcome float :=
  _cosine (_vectorize query) (_vectorize (MemoryEntry.text entry)).

(** The entries the loop keeps: those of the user whose score is above
    zero. *)
Definition relevant (user_id query : string) (entry : MemoryEntry.t) : bool :=
  bool_decide (MemoryEntry.user_id entry = user_id)
  && match score query entry with
     | Returns x => (0 <? x)%float
     | Raises _ => false
     end.

(** A scored item whose score is above zero. *)
Definition above_zero {A : Type} (p : float * A) : Prop :=
  (0 <? p.1)%float = true.

(** A text no longer than the interpreter allows a [str] to be
    ([sys.maxsize] on a 64-bit build). *)
Definition fits (text : string) : Prop :=
  Z.of_nat (String.length text) < 2 ^ 63.

Section Agent.

(** The world outside the process, the random source behind [uuid.uuid4]
    and the clock behind [datetime.utcnow]. *)
Variable W : Type.
Variable uuid4 : W -> string * W.
Variable utcnow : W -> Z * W.

(** [str()] of the values that are neither [str], [None], [bool] nor
    [int] (the interpreter's [repr] of floats, lists and dicts). *)
Variable repr : Value -> string.

(** What [f"{v}"] puts in the string. *)
Definition format (v : Value) : string :=
  match v with
  | VStr s => s
  | VNone => "None"
  | VBool true => "True"
  | VBool false => "False"
  | VInt z => pretty z
  | _ => repr v
  end.

(** ** Tool registry ([app/tools.py]) *)

(** A handler receives the arguments, may change the world, and returns a
    [ToolResult] or raises. *)
Definition ToolHandler : Type :=
  gmap string Value -> W -> outcome ToolResult.t * W.

Record ToolRegistry : Type := { _tools : gmap string ToolHandler }.

Definition ToolRegistry_init : ToolRegistry := {| _tools := ∅ |}.

Definition register (self : ToolRegistry) (name : string) (handler : ToolHandler)
  : ToolRegistry :=
  {| _tools := <[name := handler]> (_tools self) |}.

Definition run (self : ToolRegistry) (name : string) (args : gmap string Value)
    (w : W) : outcome ToolResult.t * ToolRegistry * W :=
  match _tools self !! name with
  | None =>
      (Returns (ToolResult.mk name false ("Unknown tool: " +:+ name) ∅), self, w)
  | Some handler =>
      let '(r, w') := handler args w in (r, self, w')
  end.

(** ** Planner ([WorkflowAutomationAgent._plan]) *)

Definition sql_query_step (week : Value) : ActionStep.t :=
  ActionStep.mk "sql_query" "Fetch weekly sales totals"
    {[ "query" := VStr ("SELECT salesperson, SUM(amount) AS total_amount "
                        +:+ "FROM sales WHERE week = '" +:+ format week
                        +:+ "' GROUP BY salesperson") ]}.

Definition sales_report_step (week : Value) : ActionStep.t :=
  ActionStep.mk "report_generator" "Generate sales summary report"
    (<["title" := VStr ("Sales Summary - " +:+ format week)]>
    (<["body" := VStr "Automatically generated summary from SQL results."]>
    (<["filename" := VStr ("sales-summary-" +:+ format week +:+ ".txt")]> ∅))).

Definition email_step (recipients : Value) : ActionStep.t :=
  ActionStep.mk "email_sender" "Email summary to stakeholders"
    (<["to" := recipients]>
    (<["subject" := VStr "Automated Business Summary"]>
    (<["body" := VStr "Generated report is ready."]> ∅))).

Definition meeting_step (transcript : Value) : ActionStep.t :=
  ActionStep.mk "meeting_summarizer" "Summarize meeting transcript"
    {[ "transcript" := transcript ]}.

Definition crm_step (customer_id note_ : Value) : ActionStep.t :=
  ActionStep.mk "crm_update" "Write activity note into CRM"
    (<["customer_id" := customer_id]> (<["note" := note_]> ∅)).

Definition unhandled_step (instruction : string) : ActionStep.t :=
  ActionStep.mk "report_generator"
    "Capture unsupported request into an operations report"
    (<["title" := VStr "Unhandled Automation Request"]>
    (<["body" := VStr ("Instruction: " +:+ instruction)]>
    (<["filename" := VStr "unhandled-request.txt"]> ∅))).

(** The four keyword tests of [_plan], on the lower-cased instruction. *)
Definition wants_sales_summary (text : string) : bool :=
  contains "sales" text && contains "summary" text.
Definition wants_email (text : string) : bool :=
  contains "email" text.
Definition wants_meeting_summary (text : string) : bool :=
  contains "meeting" text && (contains "summarize" text || contains "summary" text).
Definition wants_crm (text : string) : bool :=
  contains "crm" text || contains "update customer" text.

Definition _plan (instruction : string) (context : gmap string Value)
  : list ActionStep.t :=
  let text := lower instruction in
  let plan := [] in
  let plan :=
    if wants_sales_summary text then
      let week := get context "week" (VStr "2026-W11") in
      (plan ++ [sql_query_step week]) ++ [sales_report_step week]
    else plan in
  let plan :=
    if wants_email text then
      let recipients :=
        get context "recipients" (VList [VStr "management@company.com"]) in
      plan ++ [email_step recipients]
    else plan in
  let plan :=
    if wants_meeting_summary text then
      plan ++ [meeting_step (get context "transcript" (VStr ""))]
    else plan in
  let plan :=
    if wants_crm text then
      plan ++ [crm_step (get context "customer_id" (VStr "CUST-001"))
                        (get context "crm_note" (VStr "Automated follow-up logged."))]
    else plan in
  let plan :=
    match plan with
    | [] => plan ++ [unhandled_step instruction]
    | _ => plan
    end in
  plan.

(** ** Executor ([WorkflowAutomationAgent.execute]) *)

Record WorkflowAutomationAgent : Type := {
  tools : ToolRegistry;
  memory : MemoryStore;
  tasks : gmap string TaskRecord.t }.

Definition _summarize (plan : list ActionStep.t)
    (outputs : list (gmap string Value)) : string :=
  let successful :=
    length (filter (fun result => truthy (get result "ok" VNone)) outputs) in
  "Executed " +:+ pretty (length plan) +:+ " planned steps with "
  +:+ pretty successful +:+ " successful tool calls. "
  +:+ "Outputs include database extraction, artifacts, and automation actions.".

(** How the [for step in plan] loop is left: by the [return] under
    [if not result.ok], by running out of steps, or by an exception of a
    handler passing through. *)
Inductive loop_exit : Type :=
| Halted (step : ActionStep.t) (result : ToolResult.t)
| Exhausted
| Propagated (exn : string).

Fixpoint run_steps (registry : ToolRegistry) (steps : list ActionStep.t)
    (outputs : list (gmap string Value)) (w : W)
  : loop_exit * list (gmap string Value) * ToolRegistry * W :=
  match steps with
  | [] => (Exhausted, outputs, registry, w)
  | step :: rest =>
      match run registry (ActionStep.tool step) (ActionStep.arguments step) w with
      | (Returns result, registry, w) =>
          let outputs := outputs ++ [ToolResult.model_dump result] in
          if negb (ToolResult.ok result)
          then (Halted step result, outputs, registry, w)
          else run_steps registry rest outputs w
      | (Raises exn, registry, w) => (Propagated exn, outputs, registry, w)
      end
  end.

(** The three assignments [record.status = ...], [record.outputs = ...],
    [record.updated_at = ...] on the record that [self.tasks] holds. *)
Definition finish (record : TaskRecord.t) (status : TaskStatus)
    (outputs : list (gmap string Value)) (now : Z) : TaskRecord.t :=
  TaskRecord.mk (TaskRecord.task_id record) (TaskRecord.user_id record)
    (TaskRecord.instruction record) status (TaskRecord.plan record) outputs
    (TaskRecord.created_at record) now.

Definition execute (self : WorkflowAutomationAgent) (request : ExecuteRequest.t)
    (w : W) : outcome ExecuteResponse.t * WorkflowAutomationAgent * W :=
  let '(task_id, w) := uuid4 w in
  let plan := _plan (ExecuteRequest.instruction request)
                    (ExecuteRequest.context request) in
  let '(created_at, w) := utcnow w in
  let '(updated_at, w) := utcnow w in
  let record :=
    TaskRecord.mk task_id (ExecuteRequest.user_id request)
      (ExecuteRequest.instruction request) running plan [] created_at updated_at in
  let tasks1 := <[task_id := record]> (tasks self) in
  let '(now, w) := utcnow w in
  let memory1 :=
    add (memory self)
      (MemoryEntry.mk conversation (ExecuteRequest.user_id request)
         (ExecuteRequest.instruction request) {[ "task_id" := VStr task_id ]} now) in
  match run_steps (tools self) plan [] w with
  | (Propagated exn, _, registry, w) =>
      (Raises exn, {| tools := registry; memory := memory1; tasks := tasks1 |}, w)
  | (Halted step result, outputs, registry, w) =>
      let '(now, w) := utcnow w in
      let record := finish record failed outputs now in
      (Returns (ExecuteResponse.mk task_id (TaskRecord.status record) plan outputs
                  ("Task failed during tool `" +:+ ActionStep.tool step +:+ "`: "
                   +:+ ToolResult.message result)),
       {| tools := registry; memory := memory1;
          tasks := <[task_id := record]> tasks1 |}, w)
  | (Exhausted, outputs, registry, w) =>
      let '(now, w) := utcnow w in
      let record := finish record completed outputs now in
      let summary := _summarize plan outputs in
      let '(now, w) := utcnow w in
      let memory2 :=
        add memory1
          (MemoryEntry.mk task (ExecuteRequest.user_id request) summary
             (<["task_id" := VStr task_id]>
              (<["status" := VStr (TaskStatus_value (TaskRecord.status record))]> ∅))
             now) in
      (Returns (ExecuteResponse.mk task_id (TaskRecord.status record) plan outputs
                  summary),
       {| tools := registry; memory := memory2;
          tasks := <[task_id := record]> tasks1 |}, w)
  end.

Definition get_task (self : WorkflowAutomationAgent) (task_id : string)
  : option TaskRecord.t :=
  tasks self !! task_id.

(** *** Reference runs, used to state the properties of the loop *)

(** Calling the handlers of [steps] one after the other, whatever they
    report; only an exception stops the sequence. *)
Fixpoint call_all (registry : ToolRegistry) (steps : list ActionStep.t) (w : W)
  : outcome (list ToolResult.t) * W :=
  match steps with
  | [] => (Returns [], w)
  | step :: rest =>
      match run registry (ActionStep.tool step) (ActionStep.arguments step) w with
      | (Returns r, registry, w) =>
          match call_all registry rest w with
          | (Returns rs, w) => (Returns (r :: rs), w)
          | (Raises exn, w) => (Raises exn, w)
          end
      | (Raises exn, _, w) => (Raises exn, w)
      end
  end.

(** The world in which the loop of [execute] starts: the identifier has
    been drawn and the clock read three times. *)
Definition loop_start (w : W) : W :=
  snd (utcnow (snd (utcnow (snd (utcnow (snd (uuid4 w))))))).

(** The [conversation] entry that [execute] writes first. *)
Definition conversation_entry (request : ExecuteRequest.t) (w : W) : MemoryEntry.t :=
  let '(task_id, w) := uuid4 w in
  let '(_, w) := utcnow w in
  let '(_, w) := utcnow w in
  let '(now, _) := utcnow w in
  MemoryEntry.mk conversation (ExecuteRequest.user_id request)
    (ExecuteRequest.instruction request) {[ "task_id" := VStr task_id ]} now.

(** The record that [execute] stores under the new identifier before the
    loop starts. *)
Definition initial_record (request : ExecuteRequest.t) (w : W) : TaskRecord.t :=
  let '(task_id, w) := uuid4 w in
  let '(created_at, w) := utcnow w in
  let '(updated_at, _) := utcnow w in
  TaskRecord.mk task_id (ExecuteRequest.user_id request)
    (ExecuteRequest.instruction request) running
    (_plan (ExecuteRequest.instruction request) (ExecuteRequest.context request))
    [] created_at updated_at.

End Agent.

Arguments _tools {W} _.
Arguments ToolRegistry_init {W}.
Arguments register {W} self name handler.
Arguments run {W} self name args w.
Arguments tools {W} _.
Arguments memory {W} _.
Arguments tasks {W} _.
Arguments run_steps {W} registry steps outputs w.
Arguments call_all {W} registry steps w.
Arguments execute {W} uuid4 utcnow repr self request w.
Arguments get_task {W} self task_id.
Arguments loop_start {W} uuid4 utcnow w.
Arguments conversation_entry {W} uuid4 utcnow request w.
Arguments initial_record {W} uuid4 utcnow repr request w.

(** ** Tool registry: discovery, and the tools of [build_tools] *)

(** [sorted(names)] on strings: a stable sort that compares with [<],
    the order of code points; on names that are pairwise distinct every
    sort returns this list. *)
Fixpoint insert_sorted (x : string) (l : list string) : list string :=
  match l with
  | [] => [x]
  | y :: l' => if String.ltb y x then y :: insert_sorted x l' else x :: l
  end.

Definition sorted (l : list string) : list string := foldr insert_sorted [] l.

(** [s.split(sep)] for a separator of one character: the pieces between
    separators, empty pieces included; [cur] is the piece read so far. *)
Fixpoint split_on (sep : ascii) (cur : string) (s : string) : list string :=
  match s with
  | EmptyString => [cur]
  | String c rest =>
      if Ascii.eqb c sep then cur :: split_on sep "" rest
      else split_on sep (cur +:+ String c "") rest
  end.

(** [sep.join(parts)]. *)
Fixpoint join (sep : string) (parts : list string) : string :=
  match parts with
  | [] => ""
  | [part] => part
  | part :: rest => part +:+ sep +:+ join sep rest
  end.

(** The characters [s.strip()] removes: those [isspace] accepts. *)
Definition whitespace : string :=
  string_of_list_ascii
    (ascii_of_N <$> [9; 10; 11; 12; 13; 28; 29; 30; 31; 32; 133; 160]%N).

Definition newline : string := String (ascii_of_N 10) "".

Section Tools.

Variable W : Type.
Variable repr : Value -> string.

(** [int(s)] for a string and for a float: the interpreter's parser and
    truncation. *)
Variable int_of_str : string -> outcome Z.
Variable int_of_float : float -> outcome Z.

(** The database and the file system, as the tools reach them:
    [sqlite3] running a query and fetching the rows as dicts, and
    inserting a row into [crm_updates]; [pathlib] joining a directory
    and a file name, creating directories, testing, reading and writing
    a file; [json] reading and printing a value. *)
Variable fetchall : string -> Value -> W -> outcome (list Value) * W.
Variable insert_crm_update : string -> Value -> Value -> W -> outcome unit * W.
Variable joinpath : string -> Value -> outcome string.
Variable mkdir : string -> W -> outcome unit * W.
Variable exists_ : string -> W -> bool.
Variable read_text : string -> W -> outcome string * W.
Variable write_text : string -> string -> W -> outcome unit * W.
Variable json_loads : string -> outcome Value.
Variable json_dumps : Value -> outcome string.

(** [_ensure_seed_data(db_path)]: creates the two tables and seeds the
    sales table, all inside [sqlite3]. *)
Variable _ensure_seed_data : string -> W -> outcome unit * W.

(** [int(v)]. *)
Definition int (v : Value) : outcome Z :=
  match v with
  | VInt z => Returns z
  | VBool b => Returns (if b then 1 else 0)
  | VStr s => int_of_str s
  | VFloat f => int_of_float f
  | _ => Raises "TypeError"
  end.

Definition list_tools (self : ToolRegistry W) : list string :=
  sorted (map_to_list (_tools self)).*1.

Definition sql_query_tool (db_path : string) : ToolHandler W := fun args w =>
  let query := get args "query" (VStr "") in
  if negb (truthy query)
  then (Returns (ToolResult.mk "sql_query" false "Missing SQL query" ∅), w)
  else
    match fetchall db_path query w with
    | (Returns rows, w) =>
        let payload :=
          <["rows" := VList rows]>
          (<["count" := VInt (Z.of_nat (length rows))]> ∅) in
        (Returns (ToolResult.mk "sql_query" true "Query executed" payload), w)
    | (Raises exn, w) => (Raises exn, w)
    end.

Definition report_generator_tool (out_dir : string) : ToolHandler W := fun args w =>
  let title := get args "title" (VStr "Business Report") in
  let body := get args "body" (VStr "No content") in
  let filename := get args "filename" (VStr "report.txt") in
  match joinpath out_dir filename with
  | Raises exn => (Raises exn, w)
  | Returns destination =>
      match write_text destination
              ("# " +:+ format repr title +:+ newline +:+ newline
               +:+ format repr body +:+ newline) w with
      | (Returns _, w) =>
          (Returns (ToolResult.mk "report_generator" true "Report generated"
                      {[ "path" := VStr destination ]}), w)
      | (Raises exn, w) => (Raises exn, w)
      end
  end.

Definition email_sender_tool (out_dir : string) : ToolHandler W := fun args w =>
  let payload : gmap string Value :=
    <["to" := get args "to" (VList [VStr "management@company.com"])]>
    (<["subject" := get args "subject" (VStr "Automated update")]>
    (<["body" := get args "body" (VStr "See attached report.")]> ∅)) in
  match joinpath out_dir (VStr "email_log.json") with
  | Raises exn => (Raises exn, w)
  | Returns log_path =>
      let '(previous, w) :=
        if exists_ log_path w then
          match read_text log_path w with
          | (Returns text, w) => (json_loads text, w)
          | (Raises exn, w) => (Raises exn, w)
          end
        else (Returns (VList []), w) in
      match previous with
      | Raises exn => (Raises exn, w)
      | Returns (VList entries) =>
          match json_dumps (VList (entries ++ [VDict payload])) with
          | Raises exn => (Raises exn, w)
          | Returns text =>
              match write_text log_path text w with
              | (Returns _, w) =>
                  (Returns (ToolResult.mk "email_sender" true "Email queued" payload), w)
              | (Raises exn, w) => (Raises exn, w)
              end
          end
      | Returns _ => (Raises "AttributeError", w)
      end
  end.

Definition crm_update_tool (db_path : string) : ToolHandler W := fun args w =>
  let customer_id := get args "customer_id" (VStr "unknown") in
  let note_ := get args "note" (VStr "") in
  match insert_crm_update db_path customer_id note_ w with
  | (Returns _, w) =>
      (Returns (ToolResult.mk "crm_update" true "CRM updated"
                  (<["customer_id" := customer_id]> (<["note" := note_]> ∅))), w)
  | (Raises exn, w) => (Raises exn, w)
  end.

(** The sentences of a transcript: the pieces between full stops,
    stripped of surrounding white space, the blank ones left out. *)
Definition sentences_of (transcript : string) : list string :=
  filter (fun s => s ≠ "") (strip whitespace <$> split_on "." "" transcript).

Definition meeting_summarizer_tool : ToolHandler W := fun args w =>
  let transcript := get args "transcript" (VStr "") in
  match int (get args "max_sentences" (VInt 3)) with
  | Raises exn => (Raises exn, w)
  | Returns max_sentences =>
      match transcript with
      | VStr transcript =>
          let sentences := sentences_of transcript in
          let summary :=
            join ". " (slice_to sentences max_sentences)
            +:+ (match sentences with [] => "" | _ => "." end) in
          (Returns (ToolResult.mk "meeting_summarizer" true "Meeting summarized"
                      {[ "summary" := VStr summary ]}), w)
      | _ => (Raises "AttributeError", w)
      end
  end.

Definition build_tools (db_path out_dir : string) (w : W)
  : outcome (ToolRegistry W) * W :=
  match mkdir out_dir w with
  | (Raises exn, w) => (Raises exn, w)
  | (Returns _, w) =>
      match _ensure_seed_data db_path w with
      | (Raises exn, w) => (Raises exn, w)
      | (Returns _, w) =>
          let registry := ToolRegistry_init in
          let registry := register registry "sql_query" (sql_query_tool db_path) in
          let registry :=
            register registry "report_generator" (report_generator_tool out_dir) in
          let registry := register registry "email_sender" (email_sender_tool out_dir) in
          let registry := register registry "crm_update" (crm_update_tool db_path) in
          let registry :=
            register registry "meeting_summarizer" meeting_summarizer_tool in
          (Returns registry, w)
      end
  end.

End Tools.

Arguments list_tools {W} self.
Arguments sql_query_tool {W} fetchall db_path args w.
Arguments report_generator_tool {W} repr joinpath write_text out_dir args w.
Arguments email_sender_tool {W} joinpath exists_ read_text write_text
  json_loads json_dumps out_dir args w.
Arguments crm_update_tool {W} insert_crm_update db_path args w.
Arguments meeting_summarizer_tool {W} int_of_str int_of_float args w.
Arguments build_tools {W} repr int_of_str int_of_float fetchall insert_crm_update
  joinpath mkdir exists_ read_text write_text json_loads json_dumps
  _ensure_seed_data db_path out_dir w.

(** The text that [report_generator_tool] writes for the fallback step
    of an instruction. *)
Definition unhandled_report (instruction : string) : string :=
  "# Unhandled Automation Request" +:+ newline +:+ newline
  +:+ "Instruction: " +:+ instruction +:+ newline.

(** ** Memory as JSON ([to_context]) and the memory endpoint ([app/main.py]) *)

(** The three literals of [MemoryEntry.kind]. *)
Definition MemoryKind_value (k : MemoryKind) : string :=
  match k with
  | conversation => "conversation"
  | task => "task"
  | note => "note"
  end.

Section Endpoints.

(** [datetime.isoformat]. *)
Variable isoformat : Z -> string.

Definition to_context (entries : list MemoryEntry.t) : list (gmap string Value) :=
  (fun entry =>
     <["kind" := VStr (MemoryKind_value (MemoryEntry.kind entry))]>
     (<["text" := VStr (MemoryEntry.text entry)]>
     (<["metadata" := VDict (MemoryEntry.metadata entry)]>
     (<["created_at" := VStr (isoformat (MemoryEntry.created_at entry))]> ∅))))
  <$> entries.

(** [get_memory(user_id)], on the store of the module: the limits are
    the defaults of [recent] and [semantic_search]. *)
Definition get_memory (memory : MemoryStore) (user_id : string)
  : outcome (gmap string Value) :=
  let recent := recent memory user_id 10 in
  let shown := to_context recent in
  found ← semantic_search memory user_id "sales summary" 5;
  Returns (<["recent" := VList (VDict <$> shown)]>
           (<["semantic_example" := VList (VDict <$> to_context found)]> ∅)).

End Endpoints.

(** ** Sample environment *)

(** A world that only counts the calls made to it. *)
Definition counter_uuid4 (w : nat) : string * nat := ("task-" +:+ pretty w, S w).
Definition counter_utcnow (w : nat) : Z * nat := (Z.of_nat w, S w).
Definition plain_repr (_ : Value) : string := "...".

(** A handler that reports success and one that reports a failure. *)
Definition succeed (name : string) : ToolHandler nat :=
  fun _ w => (Returns (ToolResult.mk name true "done" ∅), S w).
Definition refuse (name message : string) : ToolHandler nat :=
  fun _ w => (Returns (ToolResult.mk name false message ∅), S w).

Definition sample_note (user_id text : string) : MemoryEntry.t :=
  MemoryEntry.mk note user_id text ∅ 0.

Definition sample_store : MemoryStore :=
  {| entries := [sample_note "u-1" "Sales figures";
                 sample_note "u-1" "Weekly sales summary";
                 sample_note "u-2" "sales summary";
                 sample_note "u-1" "Lunch menu";
                 sample_note "u-1" "Summary of sales"] |}.

Definition blank_agent (registry : ToolRegistry nat) : WorkflowAutomationAgent nat :=
  {| tools := registry; memory := {| entries := [] |}; tasks := ∅ |}.

(** The request of the example scenario. *)
Definition sales_request : ExecuteRequest.t :=
  ExecuteRequest.mk "u-1"
    "Generate this week's sales summary and email it to management."
    (<["week" := VStr "2026-W11"]>
     (<["recipients" := VList [VStr "management@company.com"]]> ∅)).

(** A registry in which every tool of the example succeeds, and one in
    which the report generator reports a failure. *)
Definition working_registry : ToolRegistry nat :=
  register (register (register ToolRegistry_init
    "sql_query" (succeed "sql_query"))
    "report_generator" (succeed "report_generator"))
    "email_sender" (succeed "email_sender").

Definition faulty_registry : ToolRegistry nat :=
  register working_registry "report_generator"
    (refuse "report_generator" "disk full").

(** A handler that raises, a registry in which the report generator
    does, and one that knows the query tool only. *)
Definition crash (exn : string) : ToolHandler nat :=
  fun _ w => (Raises exn, w).

Definition crashing_registry : ToolRegistry nat :=
  register working_registry "report_generator" (crash "OSError").

Definition partial_registry : ToolRegistry nat :=
  register ToolRegistry_init "sql_query" (succeed "sql_query").

(** Two requests in a row on the same agent. *)
Definition first_run :=
  execute counter_uuid4 counter_utcnow plain_repr
    (blank_agent working_registry) sales_request 0%nat.

Definition second_run :=
  execute counter_uuid4 counter_utcnow plain_repr
    first_run.1.2 sales_request first_run.2.

(** A file system that is a table of texts by path, a database that
    answers every query with one row, and a parser that reads two
    documents. *)
Definition sample_joinpath (dir : string) (name : Value) : outcome string :=
  match name with
  | VStr name => Returns (dir +:+ "/" +:+ name)
  | _ => Raises "TypeError"
  end.

Definition sample_mkdir (dir : string) (w : gmap string string)
  : outcome unit * gmap string string := (Returns (), w).

Definition sample_exists (path : string) (w : gmap string string) : bool :=
  bool_decide (is_Some (w !! path)).

Definition sample_read_text (path : string) (w : gmap string string)
  : outcome string * gmap string string :=
  match w !! path with
  | Some text => (Returns text, w)
  | None => (Raises "FileNotFoundError", w)
  end.

Definition sample_write_text (path content : string) (w : gmap string string)
  : outcome unit * gmap string string := (Returns (), <[path := content]> w).

Definition sample_json_loads (text : string) : outcome Value :=
  if String.eqb text "[]" then Returns (VList [])
  else if String.eqb text "{}" then Returns (VDict ∅)
  else Raises "JSONDecodeError".

Definition sample_json_dumps (v : Value) : outcome string :=
  match v with
  | VList [] => Returns "[]"
  | VList _ => Returns "[...]"
  | _ => Returns "{}"
  end.

Definition sample_fetchall (db_path : string) (query : Value) (w : gmap string string)
  : outcome (list Value) * gmap string string :=
  (Returns [VDict {[ "total" := VInt 1250 ]}], w).

Definition sample_insert_crm_update (db_path : string) (customer_id note_ : Value)
    (w : gmap string string) : outcome unit * gmap string string :=
  (Returns (), w).

Definition sample_ensure_seed_data (db_path : string) (w : gmap string string)
  : outcome unit * gmap string string := (Returns (), w).

Definition sample_int_of_str (s : string) : outcome Z :=
  if String.eqb s "2" then Returns 2 else Raises "ValueError".

Definition sample_int_of_float (f : float) : outcome Z :=
  if (f =? 2)%float then Returns 2 else Raises "OverflowError".

Definition sample_build_tools :=
  build_tools plain_repr sample_int_of_str sample_int_of_float sample_fetchall
    sample_insert_crm_update sample_joinpath sample_mkdir sample_exists
    sample_read_text sample_write_text sample_json_loads sample_json_dumps
    sample_ensure_seed_data "data/business.db" "data/reports" ∅.

(** A transcript of four sentences, and a request whose context holds a
    number where the transcript should be. *)
Definition sample_transcript : string :=
  "Budget approved.  Hire two engineers. Ship in May. Review in June.".

Definition meeting_registry : ToolRegistry nat :=
  register ToolRegistry_init "meeting_summarizer"
    (meeting_summarizer_tool sample_int_of_str sample_int_of_float).

Definition broken_meeting_request : ExecuteRequest.t :=
  ExecuteRequest.mk "u-1" "Summarize the meeting" {[ "transcript" := VInt 42 ]}.

Definition sample_isoformat (t : Z) : string := pretty t.

(** * Properties *)

(** ** Tool registry *)

Section RegistryProperties.
Context {W : Type}.

(** C9. Running a name that is not registered returns (does not raise) the
    result [{tool: name, ok: false, message: "Unknown tool: <name>"}];
    no handler is called, so the world is the one before the call, and
    the registry is the one before the call. *)
Theorem run_unknown_tool (self : ToolRegistry W) (name : string)
    (args : gmap string Value) (w : W) :
  _tools self !! name = None ->
  run self name args w =
    (Returns {| ToolResult.tool := name; ToolResult.ok := false;
                ToolResult.message := "Unknown tool: " +:+ name;
                ToolResult.payload := ∅ |},
     self, w).
Proof.
  intros Hfree. unfold run, ToolHandler in *. now rewrite Hfree.
Qed.

Lemma run_registry (self : ToolRegistry W) name args w :
  (run self name args w).1.2 = self.
Proof.
  unfold run. destruct (_tools self !! name) as [h|]; [|done].
  now destruct (h args w).
Qed.

End RegistryProperties.

Lemma run_unknown_tool_witness :
  run (register ToolRegistry_init "sql_query" (succeed "sql_query"))
      "send_fax" ∅ 7%nat =
  (Returns (ToolResult.mk "send_fax" false "Unknown tool: send_fax" ∅),
   register ToolRegistry_init "sql_query" (succeed "sql_query"), 7%nat).
Proof.
  apply (run_unknown_tool
           (register ToolRegistry_init "sql_query" (succeed "sql_query"))
           "send_fax" ∅ 7%nat).
  reflexivity.
Defined.

(** ** Planner *)

Section PlannerProperties.
Variable repr : Value -> string.

Lemma plan_cases (instruction : string) (context : gmap string Value) :
  let text := lower instruction in
  (wants_sales_summary text || wants_email text
   || wants_meeting_summary text || wants_crm text = false
   /\ _plan repr instruction context = [unhandled_step instruction])
  \/ (wants_sales_summary text || wants_email text
      || wants_meeting_summary text || wants_crm text = true
      /\ _plan repr instruction context <> []
      /\ Forall (fun step => ActionStep.description step <>
                   "Capture unsupported request into an operations report")
                (_plan repr instruction context)).
Proof.
  cbv zeta. unfold _plan.
  destruct (wants_sales_summary _), (wants_email _),
    (wants_meeting_summary _), (wants_crm _); cbn;
    first [ left; split; reflexivity
          | right; split; [reflexivity|split; [discriminate|]];
            repeat (apply Forall_cons; split; [discriminate|]);
            apply Forall_nil_2 ].
Qed.

Lemma plan_nonempty (instruction : string) (context : gmap string Value) :
  _plan repr instruction context <> [].
Proof.
  destruct (plan_cases instruction context) as [[_ ->]|(_ & Hne & _)]; done.
Qed.


(** C8. When the lower-cased instruction contains both "sales" and
    "summary", the plan starts with a [sql_query] step followed by a
    [report_generator] step, and the query, the title and the file name
    carry the same week: [context["week"]] when the key is present, the
    default "2026-W11" otherwise. *)
Theorem plan_sales_summary (instruction : string) (context : gmap string Value) :
  contains "sales" (lower instruction) = true ->
  contains "summary" (lower instruction) = true ->
  let week :=
    format repr (match context !! "week" with
                 | Some v => v
                 | None => VStr "2026-W11"
                 end) in
  exists first second rest,
    _plan repr instruction context = first :: second :: rest
    /\ ActionStep.tool first = "sql_query"
    /\ ActionStep.tool second = "report_generator"
    /\ ActionStep.arguments first !! "query" =
         Some (VStr ("SELECT salesperson, SUM(amount) AS total_amount "
                     +:+ "FROM sales WHERE week = '" +:+ week
                     +:+ "' GROUP BY salesperson"))
    /\ ActionStep.arguments second !! "title" =
         Some (VStr ("Sales Summary - " +:+ week))
    /\ ActionStep.arguments second !! "filename" =
         Some (VStr ("sales-summary-" +:+ week +:+ ".txt")).
Proof.
  intros Hsales Hsummary week.
  unfold _plan, wants_sales_summary. rewrite Hsales, Hsummary. cbn [andb].
  set (w := get context "week" (VStr "2026-W11")).
  assert (Hw : format repr w = week) by reflexivity.
  exists (sql_query_step repr w), (sales_report_step repr w).
  destruct (wants_email _), (wants_meeting_summary _), (wants_crm _);
    cbn [app]; eexists; (split; [reflexivity|]);
    rewrite <- Hw; repeat split; reflexivity.
Qed.

End PlannerProperties.

Lemma plan_sales_summary_witness :
  exists first second rest,
    _plan plain_repr "Weekly SALES Summary please" {[ "week" := VStr "2026-W07" ]}
      = first :: second :: rest
    /\ ActionStep.tool first = "sql_query"
    /\ ActionStep.tool second = "report_generator"
    /\ ActionStep.arguments first !! "query" =
         Some (VStr ("SELECT salesperson, SUM(amount) AS total_amount "
                     +:+ "FROM sales WHERE week = '" +:+ "2026-W07"
                     +:+ "' GROUP BY salesperson"))
    /\ ActionStep.arguments second !! "title" =
         Some (VStr ("Sales Summary - " +:+ "2026-W07"))
    /\ ActionStep.arguments second !! "filename" =
         Some (VStr ("sales-summary-" +:+ "2026-W07" +:+ ".txt")).
Proof.
  exact (plan_sales_summary plain_repr "Weekly SALES Summary please"
           {[ "week" := VStr "2026-W07" ]} eq_refl eq_refl).
Defined.

(** ** Binary64 arithmetic

    Facts about the operations of [SpecFloat], which the primitive
    floats are specified by. *)

Section Binary64.
Lemma digits2_pos_size p : digits2_pos p = Pos.size p.
Proof. induction p; cbn; congruence. Qed.

Lemma Zdigits2_bounds m :
  0 < m -> 2 ^ (Zdigits2 m - 1) <= m < 2 ^ Zdigits2 m.
Proof.
  intros Hm. destruct m as [|p|p]; try lia. cbn [Zdigits2].
  rewrite digits2_pos_size.
  assert (H : Z.pos (Pos.size p) = Z.log2 (Z.pos p) + 1).
  { destruct p; cbn; lia. }
  rewrite H. replace (Z.log2 (Z.pos p) + 1 - 1) with (Z.log2 (Z.pos p)) by lia.
  pose proof (Z.log2_spec (Z.pos p) ltac:(lia)) as Hs.
  replace (Z.log2 (Z.pos p) + 1) with (Z.succ (Z.log2 (Z.pos p))) by lia. exact Hs.
Qed.

Lemma Zdigits2_unique m d :
  2 ^ (d - 1) <= m < 2 ^ d -> 0 < d -> Zdigits2 m = d.
Proof.
  intros Hb Hd.
  assert (Hm : 0 < m). { pose proof (Z.pow_pos_nonneg 2 (d - 1)); lia. }
  pose proof (Zdigits2_bounds m Hm) as Hb'.
  assert (Hpos : 0 < Zdigits2 m). { destruct m; cbn; lia. }
  destruct (Z.lt_trichotomy (Zdigits2 m) d) as [Hlt|[Heq|Hgt]]; [|exact Heq|].
  - assert (2 ^ Zdigits2 m <= 2 ^ (d - 1)) by (apply Z.pow_le_mono_r; lia). lia.
  - assert (2 ^ d <= 2 ^ (Zdigits2 m - 1)) by (apply Z.pow_le_mono_r; lia). lia.
Qed.

(** Right shifts of the rounding record *)

Lemma shr_1_m mrs : 0 <= shr_m mrs -> shr_m (shr_1 mrs) = shr_m mrs / 2.
Proof.
  destruct mrs as [m r s]. cbn [shr_m]. intros Hm.
  destruct m as [|[p|p|]|p]; cbn [shr_1 shr_m].
  - reflexivity.
  - apply (Z.div_unique _ 2 _ 1); lia.
  - apply (Z.div_unique _ 2 _ 0); lia.
  - reflexivity.
  - lia.
Qed.

Lemma iter_shr_1_m p : forall mrs,
  0 <= shr_m mrs ->
  shr_m (SpecFloat.iter_pos shr_1 p mrs) = shr_m mrs / 2 ^ Z.pos p.
Proof.
  induction p as [p IH|p IH|]; intros mrs Hm; cbn [SpecFloat.iter_pos].
  - assert (H1 : 0 <= shr_m (shr_1 mrs)).
    { rewrite shr_1_m by assumption. apply Z.div_pos; lia. }
    assert (H2 : 0 <= shr_m (SpecFloat.iter_pos shr_1 p (shr_1 mrs))).
    { rewrite IH by assumption. apply Z.div_pos; lia. }
    rewrite IH, IH, shr_1_m by assumption.
    rewrite !Z.div_div by lia. f_equal.
    replace (Z.pos p~1) with (1 + Z.pos p + Z.pos p) by lia.
    rewrite !Z.pow_add_r by lia. change (2 ^ 1) with 2. ring.
  - assert (H2 : 0 <= shr_m (SpecFloat.iter_pos shr_1 p mrs)).
    { rewrite IH by assumption. apply Z.div_pos; lia. }
    rewrite IH, IH by assumption.
    rewrite !Z.div_div by lia. f_equal.
    replace (Z.pos p~0) with (Z.pos p + Z.pos p) by lia.
    rewrite !Z.pow_add_r by lia. ring.
  - rewrite shr_1_m by assumption. reflexivity.
Qed.

Lemma shr_m_record_of_loc m l : shr_m (shr_record_of_loc m l) = m.
Proof. destruct l as [|[]]; reflexivity. Qed.

Lemma shr_spec mrs e n :
  0 <= shr_m mrs -> 0 <= n ->
  shr_m (fst (shr mrs e n)) = shr_m mrs / 2 ^ n /\ snd (shr mrs e n) = e + n.
Proof.
  intros Hm Hn. destruct n as [|p|p]; cbn [shr fst snd]; try lia.
  - rewrite Z.pow_0_r, Z.div_1_r. lia.
  - rewrite iter_shr_1_m by assumption. lia.
Qed.

Lemma round_nearest_even_range m l :
  round_nearest_even m l = m \/ round_nearest_even m l = m + 1.
Proof.
  destruct l as [|[]]; cbn; auto. destruct (Z.even m); auto.
Qed.

(** Rounding of a number that is at least one *)

Lemma fexp_normal x : -1021 <= x -> fexp prec emax x = x - 53.
Proof. unfold fexp, SpecFloat.emin, prec, emax. lia. Qed.

Lemma digits_ge_53 m : 2 ^ 52 <= m -> 53 <= Zdigits2 m.
Proof.
  intros Hm. pose proof (Zdigits2_bounds m ltac:(lia)) as [_ Hlt].
  destruct (Z.le_gt_cases 53 (Zdigits2 m)) as [|Hd]; [assumption|].
  assert (2 ^ Zdigits2 m <= 2 ^ 52) by (apply Z.pow_le_mono_r; lia). lia.
Qed.

Lemma shr_fexp_normal m e l :
  2 ^ 52 <= m -> -1021 <= Zdigits2 m + e ->
  2 ^ 52 <= shr_m (fst (shr_fexp prec emax m e l)) < 2 ^ 53
  /\ snd (shr_fexp prec emax m e l) = e + Zdigits2 m - 53.
Proof.
  intros Hm He. unfold shr_fexp. rewrite fexp_normal by assumption.
  pose proof (digits_ge_53 m Hm) as Hd.
  pose proof (Zdigits2_bounds m ltac:(lia)) as [Hlo Hhi].
  set (d := Zdigits2 m) in *.
  replace (d + e - 53 - e) with (d - 53) by lia.
  destruct (shr_spec (shr_record_of_loc m l) e (d - 53)) as [Hs He'].
  { rewrite shr_m_record_of_loc. lia. }
  { lia. }
  rewrite Hs, He', shr_m_record_of_loc.
  assert (Hp : 0 < 2 ^ (d - 53)) by (apply Z.pow_pos_nonneg; lia).
  assert (H1 : 2 ^ (d - 1) = 2 ^ (d - 53) * 2 ^ 52).
  { rewrite <- Z.pow_add_r by lia. f_equal. lia. }
  assert (H2 : 2 ^ d = 2 ^ (d - 53) * 2 ^ 53).
  { rewrite <- Z.pow_add_r by lia. f_equal. lia. }
  split; [split|lia].
  - apply Z.div_le_lower_bound; lia.
  - apply Z.div_lt_upper_bound; lia.
Qed.

Lemma round_normal m e l :
  2 ^ 52 <= m -> -1021 <= Zdigits2 m + e ->
  (binary_round_aux prec emax false m e l = S754_infinity false
   /\ 1024 <= Zdigits2 m + e)
  \/ exists m' e',
       binary_round_aux prec emax false m e l = S754_finite false m' e'
       /\ Zdigits2 (Z.pos m') = 53
       /\ Zdigits2 m + e - 53 <= e' <= Zdigits2 m + e - 52
       /\ e' <= 971.
Proof.
  intros Hm He. unfold binary_round_aux.
  destruct (shr_fexp_normal m e l Hm He) as [Hm1 He1].
  destruct (shr_fexp prec emax m e l) as [mrs1 e1]. cbn [fst snd] in *.
  set (m1 := round_nearest_even (shr_m mrs1) (loc_of_shr_record mrs1)).
  assert (Hr : 2 ^ 52 <= m1 <= 2 ^ 53).
  { destruct (round_nearest_even_range (shr_m mrs1) (loc_of_shr_record mrs1));
      subst m1; lia. }
  pose proof (digits_ge_53 m1 ltac:(lia)) as Hd1.
  assert (Hd1' : Zdigits2 m1 <= 54).
  { pose proof (Zdigits2_bounds m1 ltac:(lia)) as [Hlo _].
    destruct (Z.le_gt_cases (Zdigits2 m1) 54) as [|Hd]; [assumption|].
    assert (2 ^ 54 <= 2 ^ (Zdigits2 m1 - 1)) by (apply Z.pow_le_mono_r; lia).
    lia. }
  pose proof (digits_ge_53 m Hm) as Hd.
  destruct (shr_fexp_normal m1 e1 loc_Exact ltac:(lia) ltac:(lia)) as [Hm2 He2].
  destruct (shr_fexp prec emax m1 e1 loc_Exact) as [mrs2 e2]. cbn [fst snd] in *.
  destruct (shr_m mrs2) as [|m2|m2] eqn:Hm2'; try lia.
  unfold emax, prec. change (1024 - 53) with 971.
  destruct (Z.leb_spec e2 971) as [Hle|Hgt].
  - right. exists m2, e2. split; [reflexivity|].
    split; [apply Zdigits2_unique; lia|]. lia.
  - left. split; [reflexivity|lia].
Qed.

Lemma digits_lower k m : 0 <= k -> 2 ^ k <= m -> k + 1 <= Zdigits2 m.
Proof.
  intros Hk Hm.
  assert (0 < 2 ^ k) by (apply Z.pow_pos_nonneg; lia).
  pose proof (Zdigits2_bounds m ltac:(lia)) as [_ Hlt].
  destruct (Z.le_gt_cases (k + 1) (Zdigits2 m)) as [|Hd]; [assumption|].
  assert (2 ^ Zdigits2 m <= 2 ^ k) by (apply Z.pow_le_mono_r; lia). lia.
Qed.

Lemma at_least_one_valid x : at_least_one x -> valid_binary x = true.
Proof.
  intros [->|(m & e & -> & Hd & He)]; [reflexivity|].
  cbn. unfold bounded, canonical_mantissa.
  cbn [Zdigits2] in Hd. rewrite Hd, fexp_normal by lia.
  unfold emax, prec. apply andb_true_intro. split.
  - apply Z.eqb_eq. lia.
  - apply Z.leb_le. lia.
Qed.

Lemma round_at_least_one m e l :
  2 ^ 52 <= m -> 1 <= Zdigits2 m + e ->
  at_least_one (binary_round_aux prec emax false m e l)
  /\ (Zdigits2 m + e <= 1023 ->
      binary_round_aux prec emax false m e l <> S754_infinity false).
Proof.
  intros Hm He.
  destruct (round_normal m e l Hm ltac:(lia))
    as [[-> Hbig]|(m' & e' & -> & Hd & He' & Hmax)].
  - split; [now left|lia].
  - split; [|discriminate]. right. exists m', e'. repeat split; try assumption; lia.
Qed.

Lemma SFmul_at_least_one x y :
  at_least_one x -> at_least_one y -> at_least_one (SFmul prec emax x y).
Proof.
  intros [->|(mx & ex & -> & Hdx & Hex)] [->|(my & ey & -> & Hdy & Hey)];
    cbn [SFmul xorb]; try now left.
  pose proof (Zdigits2_bounds (Z.pos mx) ltac:(lia)) as Hbx.
  pose proof (Zdigits2_bounds (Z.pos my) ltac:(lia)) as Hby.
  rewrite Hdx in Hbx. rewrite Hdy in Hby.
  change (53 - 1) with 52 in *.
  assert (Hm : 2 ^ 104 <= Z.pos (mx * my)).
  { rewrite Pos2Z.inj_mul. change (2 ^ 104) with (2 ^ 52 * 2 ^ 52).
    apply Z.mul_le_mono_nonneg; lia. }
  pose proof (digits_lower 104 _ ltac:(lia) Hm) as Hd.
  destruct (round_normal (Z.pos (mx * my)) (ex + ey) loc_Exact ltac:(lia) ltac:(lia))
    as [[-> _]|(m' & e' & -> & Hd' & He' & Hmax)]; [now left|].
  right. exists m', e'. repeat split; try assumption; lia.
Qed.

Lemma SFsqrt_at_least_one x :
  at_least_one x -> at_least_one (SFsqrt prec emax x).
Proof.
  intros [->|(m & e & -> & Hd & He)]; [now left|].
  cbn [SFsqrt]. unfold SFsqrt_core_binary. rewrite Hd.
  pose proof (Zdigits2_bounds (Z.pos m) ltac:(lia)) as Hb. rewrite Hd in Hb.
  change (53 - 1) with 52 in Hb.
  pose proof (Zdiv2_odd_eqn e) as Hdiv. 
  assert (He2 : 0 <= e - 2 * Z.div2 e <= 1) by (destruct (Z.odd e); lia).
  assert (Hhalf : Z.div2 (53 + e + 1) = Z.div2 e + 27).
  { pose proof (Zdiv2_odd_eqn (53 + e + 1)) as H54.
    replace (Z.odd (53 + e + 1)) with (Z.odd e) in H54.
    - destruct (Z.odd e); lia.
    - replace (53 + e + 1) with (e + 2 * 27) by lia.
      now rewrite Z.odd_add_mul_2. }
  rewrite Hhalf, fexp_normal by lia.
  replace (Z.min (Z.div2 e + 27 - 53) (Z.div2 e)) with (Z.div2 e - 26) by lia.
  set (s := e - 2 * (Z.div2 e - 26)).
  assert (Hs : 52 <= s <= 53) by (subst s; lia).
  assert (Hm' : match s with
                | 0 => Z.pos m
                | Z.pos _ => Z.shiftl (Z.pos m) s
                | Z.neg _ => 0
                end = Z.pos m * 2 ^ s).
  { destruct s; try lia. now rewrite Z.shiftl_mul_pow2 by lia. }
  rewrite Hm'.
  assert (Hrange : 2 ^ 104 <= Z.pos m * 2 ^ s < 2 ^ 106).
  { assert (2 ^ 52 <= 2 ^ s <= 2 ^ 53) by (split; apply Z.pow_le_mono_r; lia).
    change (2 ^ 104) with (2 ^ 52 * 2 ^ 52).
    change (2 ^ 106) with (2 ^ 53 * 2 ^ 53). nia. }
  pose proof (Z.sqrtrem_spec (Z.pos m * 2 ^ s) ltac:(lia)) as Hsq.
  destruct (Z.sqrtrem (Z.pos m * 2 ^ s)) as [q r].
  destruct Hsq as [Hq Hr].
  assert (Hqb : 2 ^ 52 <= q < 2 ^ 53).
  { change (2 ^ 104) with (2 ^ 52 * 2 ^ 52) in Hrange.
    change (2 ^ 106) with (2 ^ 53 * 2 ^ 53) in Hrange. nia. }
  assert (Hdq : Zdigits2 q = 53) by (apply Zdigits2_unique; [exact Hqb|lia]).
  match goal with |- at_least_one (binary_round_aux _ _ _ _ _ ?l) =>
    destruct (round_normal q (Z.div2 e - 26) l ltac:(lia) ltac:(lia))
      as [[-> _]|(m' & e' & -> & Hd' & He' & Hmax)] end; [now left|].
  right. exists m', e'. repeat split; try assumption; lia.
Qed.

Lemma iter_xO m p : Z.pos (Pos.iter xO m p) = Z.pos m * 2 ^ Z.pos p.
Proof.
  change (Pos.iter xO m p) with (shift_pos p m).
  rewrite shift_pos_correct, Z.pow_pos_fold. ring.
Qed.

(** [float(z)] for an integer that is at least one *)
Lemma binary_normalize_at_least_one z :
  1 <= z ->
  at_least_one (binary_normalize prec emax z 0 false)
  /\ (z < 2 ^ 1023 -> binary_normalize prec emax z 0 false <> S754_infinity false).
Proof.
  intros Hz. destruct z as [|m|m]; try lia.
  cbn [binary_normalize]. unfold binary_round, shl_align.
  pose proof (Zdigits2_bounds (Z.pos m) ltac:(lia)) as Hb.
  cbn [Zdigits2] in Hb. set (d := Z.pos (digits2_pos m)) in *.
  assert (Hd : 1 <= d) by (subst d; lia).
  rewrite Z.add_0_r, fexp_normal by lia.
  assert (Hfin : Z.pos m < 2 ^ 1023 -> d <= 1023).
  { intros Hlt. destruct (Z.le_gt_cases d 1023) as [|Hgt]; [assumption|].
    assert (2 ^ 1023 <= 2 ^ (d - 1)) by (apply Z.pow_le_mono_r; lia). lia. }
  destruct (d - 53 - 0) as [|p|p] eqn:Hshift.
  - assert (Hm : 2 ^ 52 <= Z.pos m) by (replace 52 with (d - 1) by lia; lia).
    destruct (round_at_least_one (Z.pos m) 0 loc_Exact Hm) as [Hone Hfinite].
    { cbn [Zdigits2]. fold d. lia. }
    split; [exact Hone|]. intros Hlt. apply Hfinite. cbn [Zdigits2]. fold d.
    specialize (Hfin Hlt). lia.
  - assert (Hm : 2 ^ 52 <= Z.pos m).
    { assert (2 ^ 52 <= 2 ^ (d - 1)) by (apply Z.pow_le_mono_r; lia). lia. }
    destruct (round_at_least_one (Z.pos m) 0 loc_Exact Hm) as [Hone Hfinite].
    { cbn [Zdigits2]. fold d. lia. }
    split; [exact Hone|]. intros Hlt. apply Hfinite. cbn [Zdigits2]. fold d.
    specialize (Hfin Hlt). lia.
  - assert (Hp : Z.pos p = 53 - d) by lia.
    assert (Hmz : 2 ^ 52 <= Z.pos (Pos.iter xO m p) < 2 ^ 53).
    { rewrite iter_xO, Hp.
      assert (0 < 2 ^ (53 - d)) by (apply Z.pow_pos_nonneg; lia).
      assert (H52 : 2 ^ 52 = 2 ^ (d - 1) * 2 ^ (53 - d)).
      { rewrite <- Z.pow_add_r by lia. f_equal. lia. }
      assert (H53 : 2 ^ 53 = 2 ^ d * 2 ^ (53 - d)).
      { rewrite <- Z.pow_add_r by lia. f_equal. lia. }
      rewrite H52, H53. split.
      - apply Z.mul_le_mono_nonneg_r; lia.
      - apply Z.mul_lt_mono_pos_r; lia. }
    assert (Hdz : Zdigits2 (Z.pos (Pos.iter xO m p)) = 53).
    { apply Zdigits2_unique; [exact Hmz|lia]. }
    destruct (round_at_least_one (Z.pos (Pos.iter xO m p)) (d - 53) loc_Exact)
      as [Hone Hfinite]; [lia|lia|].
    split; [exact Hone|]. intros Hlt. apply Hfinite. specialize (Hfin Hlt). lia.
Qed.

(** Rounding a non-negative number gives a non-negative number, never a
    NaN *)

Lemma shr_nonneg mrs e n : 0 <= shr_m mrs -> 0 <= shr_m (fst (shr mrs e n)).
Proof.
  intros Hm. destruct n as [|p|p]; cbn [shr fst]; try assumption.
  rewrite iter_shr_1_m by assumption. apply Z.div_pos; lia.
Qed.

Lemma round_non_negative m e l :
  0 <= m -> non_negative (binary_round_aux prec emax false m e l).
Proof.
  intros Hm. unfold binary_round_aux, shr_fexp.
  pose proof (shr_nonneg (shr_record_of_loc m l) e
                (fexp prec emax (Zdigits2 m + e) - e)) as H1.
  rewrite shr_m_record_of_loc in H1. specialize (H1 Hm).
  destruct (shr (shr_record_of_loc m l) e _) as [mrs1 e1]. cbn [fst] in H1.
  set (m1 := round_nearest_even (shr_m mrs1) (loc_of_shr_record mrs1)).
  assert (Hm1 : 0 <= m1).
  { destruct (round_nearest_even_range (shr_m mrs1) (loc_of_shr_record mrs1));
      subst m1; lia. }
  pose proof (shr_nonneg (shr_record_of_loc m1 loc_Exact) e1
                (fexp prec emax (Zdigits2 m1 + e1) - e1)) as H2.
  rewrite shr_m_record_of_loc in H2. specialize (H2 Hm1).
  destruct (shr (shr_record_of_loc m1 loc_Exact) e1 _) as [mrs2 e2]. cbn [fst] in H2.
  destruct (shr_m mrs2) as [|m2|m2]; [reflexivity| |lia].
  destruct (e2 <=? emax - prec); reflexivity.
Qed.

Lemma at_least_one_non_negative x : at_least_one x -> non_negative x.
Proof. intros [->|(m & e & -> & _)]; reflexivity. Qed.

Lemma SFdiv_non_negative x y :
  non_negative x -> x <> S754_infinity false -> at_least_one y ->
  non_negative (SFdiv prec emax x y).
Proof.
  intros Hx Hfin [->|(my & ey & -> & Hd & He)];
    destruct x as [sx|sx| |sx mx ex]; cbn in Hx; try contradiction; subst sx;
    try reflexivity; try congruence.
  cbn [SFdiv xorb]. unfold SFdiv_core_binary.
  set (s := ex - ey - _).
  set (m' := match s with 0 => Z.pos mx | Z.pos _ => Z.shiftl (Z.pos mx) s | Z.neg _ => 0 end).
  assert (Hm' : 0 <= m').
  { subst m'. destruct s; try lia. apply Z.shiftl_nonneg. lia. }
  pose proof (Z_div_mod m' (Z.pos my) ltac:(lia)) as Hdiv.
  destruct (Z.div_eucl m' (Z.pos my)) as [q r].
  apply round_non_negative. nia.
Qed.

Lemma SFdiv_zero y :
  at_least_one y -> SFdiv prec emax (S754_zero false) y = S754_zero false.
Proof. intros [->|(my & ey & -> & _)]; reflexivity. Qed.


(** The order on positive numbers *)









End Binary64.

(** ** Python numbers *)

Section Numbers.

Lemma Prim2SF_zero : Prim2SF 0%float = S754_zero false.
Proof. reflexivity. Qed.


Lemma float_mul_at_least_one (x y : float) :
  at_least_one (Prim2SF x) -> at_least_one (Prim2SF y) ->
  at_least_one (Prim2SF (x * y)%float).
Proof. rewrite FloatAxioms.mul_spec. apply SFmul_at_least_one. Qed.

Lemma float_sqrt_at_least_one (x : float) :
  at_least_one (Prim2SF x) -> at_least_one (Prim2SF (PrimFloat.sqrt x)).
Proof. rewrite FloatAxioms.sqrt_spec. apply SFsqrt_at_least_one. Qed.


Lemma at_least_one_tests (x : float) :
  at_least_one (Prim2SF x) ->
  (x =? 0)%float = false /\ (x <? 0)%float = false /\ (0 <? x)%float = true.
Proof.
  intros Hx. rewrite FloatAxioms.eqb_spec, !FloatAxioms.ltb_spec, Prim2SF_zero.
  destruct Hx as [->|(m & e & -> & _)]; done.
Qed.

(** Converting an integer from 1 upwards either overflows or gives a
    value from 1.0 upwards; below [2^1023] it does not overflow. *)
Lemma float_of_int_at_least_one (z : Z) :
  1 <= z ->
  (float_of_int z = Raises "OverflowError" /\ 2 ^ 1023 <= z)
  \/ exists x, float_of_int z = Returns x /\ at_least_one (Prim2SF x)
               /\ Prim2SF x <> S754_infinity false.
Proof.
  intros Hz. unfold float_of_int.
  destruct (binary_normalize_at_least_one z Hz) as [Hone Hfinite].
  pose proof (at_least_one_valid _ Hone) as Hvalid.
  destruct Hone as [Hinf|(m & e & Hfin & Hd & He)].
  - rewrite Hinf. left. split; [done|].
    destruct (Z.le_gt_cases (2 ^ 1023) z) as [|Hlt]; [done|].
    now destruct (Hfinite ltac:(lia)).
  - rewrite Hfin in *. right. eexists. split; [done|].
    rewrite Prim2SF_SF2Prim by done. split; [right; eauto|done].
Qed.

Lemma math_sqrt_at_least_one (z : Z) :
  1 <= z ->
  (math_sqrt z = Raises "OverflowError" /\ 2 ^ 1023 <= z)
  \/ exists x, math_sqrt z = Returns x /\ at_least_one (Prim2SF x).
Proof.
  intros Hz. unfold math_sqrt.
  destruct (float_of_int_at_least_one z Hz) as [[-> Hbig]|(x & -> & Hx & _)].
  - now left.
  - right. cbn. destruct (at_least_one_tests x Hx) as (_ & -> & _).
    eexists. split; [done|]. now apply float_sqrt_at_least_one.
Qed.

End Numbers.

(** ** Frequency vectors *)

Section Vectors.
Implicit Types (a b : gmap string Z) (l : list Z).

Lemma sum_perm l1 l2 : l1 ≡ₚ l2 -> sum l1 = sum l2.
Proof. unfold sum. induction 1; cbn; lia. Qed.

Lemma sum_nonneg l : Forall (fun x => 0 <= x) l -> 0 <= sum l.
Proof. unfold sum. induction 1; cbn; lia. Qed.

Lemma sum_zero l : Forall (fun x => x = 0) l -> sum l = 0.
Proof. unfold sum. induction 1; cbn; lia. Qed.

Lemma sum_squares_empty : sum_squares ∅ = 0.
Proof. unfold sum_squares. now rewrite map_to_list_empty. Qed.

Lemma dot_empty_l b : dot ∅ b = 0.
Proof. unfold dot. now rewrite map_to_list_empty. Qed.

Lemma sum_squares_insert a k v :
  a !! k = None -> sum_squares (<[k:=v]> a) = v * v + sum_squares a.
Proof.
  intros Hk. unfold sum_squares.
  now rewrite (sum_perm _ _ (fmap_Permutation _ _ _ (map_to_list_insert a k v Hk))).
Qed.

Lemma dot_insert_l a b k v :
  a !! k = None -> dot (<[k:=v]> a) b = v * default 0 (b !! k) + dot a b.
Proof.
  intros Hk. unfold dot.
  now rewrite (sum_perm _ _ (fmap_Permutation _ _ _ (map_to_list_insert a k v Hk))).
Qed.

Lemma sum_squares_nonneg a : 0 <= sum_squares a.
Proof.
  unfold sum_squares. apply sum_nonneg, Forall_fmap, Forall_forall.
  intros [t v] _. cbn. nia.
Qed.

(** [dot] looks [b] up at the tokens of [a] only. *)
Lemma dot_ext a b b' :
  (forall t, is_Some (a !! t) -> b !! t = b' !! t) -> dot a b = dot a b'.
Proof.
  intros Hext. unfold dot. f_equal. apply Forall_fmap_ext, Forall_forall.
  intros [t v] Hin. apply elem_of_map_to_list in Hin.
  cbn. now rewrite (Hext t) by eauto.
Qed.





Lemma dot_disjoint a b :
  (forall t, a !! t = None \/ b !! t = None) -> dot a b = 0.
Proof.
  intros Hdisj. unfold dot. apply sum_zero, Forall_fmap, Forall_forall.
  intros [t v] Hin. apply elem_of_map_to_list in Hin. cbn.
  destruct (Hdisj t) as [Ha| ->]; [congruence|]. cbn. lia.
Qed.

Lemma dot_nonneg a b :
  map_Forall (fun _ v => 0 <= v) a -> map_Forall (fun _ v => 0 <= v) b ->
  0 <= dot a b.
Proof.
  intros Ha Hb. unfold dot. apply sum_nonneg, Forall_fmap, Forall_forall.
  intros [t v] Hin. apply elem_of_map_to_list in Hin. cbn.
  specialize (Ha t v Hin). cbn in Ha.
  destruct (b !! t) as [u|] eqn:Hu; cbn; [|lia].
  specialize (Hb t u Hu). cbn in Hb. nia.
Qed.

Lemma sum_squares_delete b k :
  sum_squares b = default 0 (b !! k) * default 0 (b !! k) + sum_squares (delete k b).
Proof.
  destruct (b !! k) as [u|] eqn:Hu; cbn.
  - rewrite <- (insert_delete_id b k u Hu) at 1.
    now rewrite sum_squares_insert by apply lookup_delete_eq.
  - now rewrite delete_id.
Qed.

Lemma cauchy_step (v x D A B : Z) :
  0 <= A -> 0 <= B -> D * D <= A * B ->
  (v * x + D) * (v * x + D) <= (v * v + A) * (x * x + B).
Proof.
  intros HA HB HD.
  assert (HE : 0 <= v * v * B + A * (x * x) - 2 * (v * x * D)).
  { destruct (Z.eq_dec A 0) as [->|HA0].
    - assert (D = 0) by nia. subst D. nia.
    - apply (Z.mul_nonneg_cancel_l A); [lia|].
      replace (A * (v * v * B + A * (x * x) - 2 * (v * x * D)))
        with (v * v * (A * B - D * D) + (v * D - A * x) * (v * D - A * x)) by ring.
      apply Z.add_nonneg_nonneg; [|apply Z.square_nonneg].
      apply Z.mul_nonneg_nonneg; [apply Z.square_nonneg|lia]. }
  nia.
Qed.

(** Cauchy-Schwarz, in exact integer arithmetic. *)
Lemma dot_squared_le a b :
  dot a b * dot a b <= sum_squares a * sum_squares b.
Proof.
  revert b. induction a as [|k v a Hk IH] using map_ind; intros b.
  - rewrite dot_empty_l, sum_squares_empty. lia.
  - rewrite dot_insert_l, sum_squares_insert by done.
    rewrite (dot_ext a b (delete k b)).
    2:{ intros t [x Hx]. rewrite lookup_delete_ne; [done|congruence]. }
    rewrite (sum_squares_delete b k).
    apply cauchy_step; [apply sum_squares_nonneg..|apply IH].
Qed.

End Vectors.

(** ** Tokens and counts *)

Section Tokens.
Implicit Types (a c : gmap string Z) (text cur : string).

Lemma total_insert c k v :
  c !! k = None ->
  sum ((fun p => p.2) <$> map_to_list (<[k:=v]> c))
  = v + sum ((fun p => p.2) <$> map_to_list c).
Proof.
  intros Hk.
  now rewrite (sum_perm _ _ (fmap_Permutation _ _ _ (map_to_list_insert c k v Hk))).
Qed.

Lemma total_increment c t :
  sum ((fun p => p.2) <$> map_to_list (<[t := default 0 (c !! t) + 1]> c))
  = sum ((fun p => p.2) <$> map_to_list c) + 1.
Proof.
  destruct (c !! t) as [u|] eqn:Hu; cbn.
  - rewrite <- (insert_delete_id c t u Hu).
    rewrite insert_insert_eq, !total_insert by apply lookup_delete_eq. lia.
  - rewrite total_insert by done. lia.
Qed.

Lemma Counter_fold (tokens : list string) c :
  map_Forall (fun _ v => 1 <= v) c ->
  let c' := foldl (fun c t => <[t := default 0 (c !! t) + 1]> c) c tokens in
  map_Forall (fun _ v => 1 <= v) c'
  /\ sum ((fun p => p.2) <$> map_to_list c')
     = sum ((fun p => p.2) <$> map_to_list c) + Z.of_nat (length tokens).
Proof.
  revert c. induction tokens as [|t tokens IH]; intros c Hc; cbn.
  - split; [done|lia].
  - destruct (IH (<[t := default 0 (c !! t) + 1]> c)) as [Hall Hsum].
    { apply map_Forall_insert_2; [|done].
      destruct (c !! t) as [u|] eqn:Hu; cbn; [|lia].
      specialize (Hc t u Hu). cbn in Hc. lia. }
    split; [exact Hall|]. rewrite Hsum, total_increment. lia.
Qed.

(** The counts of a [Counter] are positive and add up to the number of
    tokens counted. *)
Lemma Counter_total (tokens : list string) :
  map_Forall (fun _ v => 1 <= v) (Counter tokens)
  /\ sum ((fun p => p.2) <$> map_to_list (Counter tokens))
     = Z.of_nat (length tokens).
Proof.
  destruct (Counter_fold tokens ∅) as [Hall Hsum]; [apply map_Forall_empty|].
  split; [exact Hall|]. unfold Counter. rewrite Hsum, map_to_list_empty. cbn. lia.
Qed.

Lemma sum_squares_le_total a :
  counts_nonneg a ->
  let total := sum ((fun p => p.2) <$> map_to_list a) in
  0 <= total /\ sum_squares a <= total * total.
Proof.
  induction a as [|k v a Hk IH] using map_ind; intros Ha; cbn zeta.
  - rewrite sum_squares_empty, map_to_list_empty. cbn. lia.
  - apply map_Forall_insert in Ha as [Hv Ha]; [|done].
    destruct (IH Ha) as [Ht Hs]. cbn zeta in Ht, Hs.
    rewrite sum_squares_insert, total_insert by done. nia.
Qed.

Lemma append_nonempty cur (c : ascii) : String.eqb (cur +:+ String c "") "" = false.
Proof. now destruct cur. Qed.

Lemma split_from_length text : forall cur,
  (length (split_from cur text)
   <= (if String.eqb cur "" then 0 else 1) + String.length text)%nat.
Proof.
  induction text as [|c rest IH]; intros cur; cbn.
  - destruct (String.eqb cur ""); cbn; lia.
  - destruct (isspace c).
    + specialize (IH ""). cbn in IH. destruct (String.eqb cur ""); cbn; lia.
    + specialize (IH (cur +:+ String c "")). rewrite append_nonempty in IH.
      destruct (String.eqb cur ""); lia.
Qed.

(** A text of [n] characters gives a vector of positive counts whose sum
    of squares is at most [n^2]. *)
Lemma vectorize_bound text :
  map_Forall (fun _ v => 1 <= v) (_vectorize text)
  /\ sum_squares (_vectorize text)
     <= Z.of_nat (String.length text) * Z.of_nat (String.length text).
Proof.
  unfold _vectorize.
  set (tokens := filter _ _).
  destruct (Counter_total tokens) as [Hall Hsum]. split; [exact Hall|].
  assert (Hnn : counts_nonneg (Counter tokens)).
  { intros t v Hv. specialize (Hall t v Hv). cbn in *. lia. }
  destruct (sum_squares_le_total _ Hnn) as [Ht Hs]. cbn zeta in Ht, Hs.
  rewrite Hsum in Ht, Hs.
  assert (Hlen : (length tokens <= String.length text)%nat).
  { subst tokens. etransitivity; [apply length_filter|].
    rewrite length_fmap. unfold split.
    etransitivity; [apply split_from_length|]. cbn. lia. }
  nia.
Qed.

Lemma vectorize_counts_nonneg text : counts_nonneg (_vectorize text).
Proof.
  destruct (vectorize_bound text) as [Hall _].
  intros t v Hv. specialize (Hall t v Hv). cbn in *. lia.
Qed.

Lemma vectorize_small text :
  Z.of_nat (String.length text) < 2 ^ 63 ->
  sum_squares (_vectorize text) < 2 ^ 500.
Proof.
  intros Hlen. destruct (vectorize_bound text) as [_ Hs].
  assert (Z.of_nat (String.length text) * Z.of_nat (String.length text)
          < 2 ^ 63 * 2 ^ 63) by nia.
  assert ((2:Z) ^ 63 * 2 ^ 63 < 2 ^ 500) by (rewrite <- Z.pow_add_r by lia; apply Z.pow_lt_mono_r; lia).
  lia.
Qed.

End Tokens.

(** ** Cosine similarity *)

Section Cosine.
Implicit Types (a b : gmap string Z).

(** The norm of a vector: zero, an overflow, or a value from 1.0 upwards. *)
Lemma norm_cases a :
  (sum_squares a = 0 /\ math_sqrt (sum_squares a) = Returns 0%float)
  \/ (2 ^ 1023 <= sum_squares a
      /\ math_sqrt (sum_squares a) = Raises "OverflowError")
  \/ (1 <= sum_squares a
      /\ exists x, math_sqrt (sum_squares a) = Returns x
                   /\ at_least_one (Prim2SF x)).
Proof.
  pose proof (sum_squares_nonneg a) as Hn.
  destruct (Z.eq_dec (sum_squares a) 0) as [->|Hne]; [now left|].
  right. destruct (math_sqrt_at_least_one (sum_squares a) ltac:(lia))
    as [[Hr Hbig]|Hx]; [left|right]; split; (done || lia).
Qed.



Lemma float_div_zero (y : float) :
  at_least_one (Prim2SF y) -> (0 / y)%float = 0%float.
Proof.
  intros Hy. apply Prim2SF_inj.
  now rewrite FloatAxioms.div_spec, Prim2SF_zero, SFdiv_zero.
Qed.

Lemma non_negative_leb (x : float) :
  non_negative (Prim2SF x) -> (0 <=? x)%float = true.
Proof.
  rewrite FloatAxioms.leb_spec, Prim2SF_zero.
  now destruct (Prim2SF x) as [[]|[]| |[] m e].
Qed.

(** Dividing a non-negative integer by a value from 1.0 upwards. *)
Lemma truediv_non_negative (z : Z) (y : float) :
  0 <= z -> at_least_one (Prim2SF y) ->
  (truediv z y = Raises "OverflowError" /\ 2 ^ 1023 <= z)
  \/ exists x, truediv z y = Returns x /\ non_negative (Prim2SF x)
               /\ (z = 0 -> x = 0%float).
Proof.
  intros Hz Hy. unfold truediv.
  destruct (at_least_one_tests y Hy) as (Hy0 & _ & _).
  destruct (Z.eq_dec z 0) as [->|Hne].
  - right. cbn. rewrite Hy0. eexists. split; [done|].
    rewrite float_div_zero by done. done.
  - destruct (float_of_int_at_least_one z ltac:(lia))
      as [[-> Hbig]|(x & -> & Hx & Hfin)]; [now left|].
    right. cbn. rewrite Hy0. eexists. split; [done|]. split; [|lia].
    rewrite FloatAxioms.div_spec.
    apply SFdiv_non_negative; [now apply at_least_one_non_negative|done..].
Qed.

(** What [_cosine] can do on vectors of non-negative counts: return a
    value that is not negative (and not a NaN), or raise [OverflowError]
    when a sum does not fit a binary64 number; it never divides by
    zero. *)
Lemma cosine_outcome a b :
  counts_nonneg a -> counts_nonneg b ->
  match _cosine a b with
  | Returns x => (0 <=? x)%float = true
  | Raises exn =>
      exn = "OverflowError"
      /\ (2 ^ 1023 <= sum_squares a \/ 2 ^ 1023 <= sum_squares b
          \/ 2 ^ 1023 <= dot a b)
  end.
Proof.
  intros Ha Hb. unfold _cosine.
  destruct (bool_decide (a = ∅) || bool_decide (b = ∅)); [done|].
  pose proof (dot_nonneg a b Ha Hb) as Hdot.
  destruct (norm_cases a) as [[_ ->]|[[? ->]|(_ & x & -> & Hx)]]; cbn; [|auto|].
  - destruct (norm_cases b) as [[_ ->]|[[? ->]|(_ & y & -> & Hy)]]; cbn; auto.
  - destruct (norm_cases b) as [[_ ->]|[[? ->]|(_ & y & -> & Hy)]]; cbn; [|auto|].
    + destruct (at_least_one_tests x Hx) as (-> & _). done.
    + destruct (at_least_one_tests x Hx) as (-> & _).
      destruct (at_least_one_tests y Hy) as (-> & _). cbn -[truediv].
      destruct (truediv_non_negative (dot a b) (x * y)%float Hdot)
        as [[-> ?]|(q & -> & Hq & _)];
        [now apply float_mul_at_least_one|auto|].
      now apply non_negative_leb.
Qed.


(** No overflow on vectors whose sums of squares stay below [2^500]. *)
Lemma cosine_returns a b :
  counts_nonneg a -> counts_nonneg b ->
  sum_squares a < 2 ^ 500 -> sum_squares b < 2 ^ 500 ->
  exists x, _cosine a b = Returns x.
Proof.
  intros Ha Hb Hsa Hsb. pose proof (cosine_outcome a b Ha Hb) as H.
  destruct (_cosine a b) as [x|exn]; [eauto|].
  destruct H as [_ Hbig]. exfalso.
  pose proof (dot_squared_le a b) as Hcs.
  pose proof (sum_squares_nonneg a). pose proof (sum_squares_nonneg b).
  assert (H500 : (2 ^ 500) * (2 ^ 500) = 2 ^ 1000) by (now rewrite <- Z.pow_add_r).
  assert (Hlt : (2:Z) ^ 500 < 2 ^ 1023) by (apply Z.pow_lt_mono_r; lia).
  assert (Hp : (0:Z) < 2 ^ 500) by (apply Z.pow_pos_nonneg; lia).
  destruct Hbig as [?|[?|Hd]]; [lia|lia|].
  assert (sum_squares a * sum_squares b < 2 ^ 500 * 2 ^ 500) by nia.
  assert (2 ^ 500 * 2 ^ 500 <= dot a b * dot a b) by nia.
  lia.
Qed.

(** Vectors without a common token score [0.0]. *)
Lemma cosine_disjoint a b :
  (forall t, a !! t = None \/ b !! t = None) ->
  sum_squares a < 2 ^ 1023 -> sum_squares b < 2 ^ 1023 ->
  _cosine a b = Returns 0%float.
Proof.
  intros Hdisj Hsa Hsb. unfold _cosine.
  destruct (bool_decide (a = ∅) || bool_decide (b = ∅)); [done|].
  rewrite (dot_disjoint a b Hdisj).
  destruct (norm_cases a) as [[_ ->]|[[? _]|(_ & x & -> & Hx)]]; cbn; [|lia|].
  - destruct (norm_cases b) as [[_ ->]|[[? _]|(_ & y & -> & Hy)]]; cbn; [done|lia|done].
  - destruct (norm_cases b) as [[_ ->]|[[? _]|(_ & y & -> & Hy)]]; cbn; [|lia|].
    + destruct (at_least_one_tests x Hx) as (-> & _). done.
    + destruct (at_least_one_tests x Hx) as (-> & _).
      destruct (at_least_one_tests y Hy) as (-> & _). cbn.
      pose proof (float_mul_at_least_one x y Hx Hy) as Hxy.
      destruct (at_least_one_tests _ Hxy) as (-> & _).
      now rewrite float_div_zero.
Qed.



End Cosine.


(** ** Ranking by score *)

Section Ranking.
Context {A : Type}.
Implicit Types (p q : float * A) (l : list (float * A)) (x y z : float).







Lemma insert_desc_perm p l : insert_desc p l ≡ₚ p :: l.
Proof.
  induction l as [|q l IH]; cbn; [done|].
  destruct (p.1 <? q.1)%float; [|done].
  rewrite IH. apply Permutation_swap.
Qed.

Lemma sort_desc_cons p l : sort_desc (p :: l) = insert_desc p (sort_desc l).
Proof. reflexivity. Qed.

Lemma sort_desc_perm l : sort_desc l ≡ₚ l.
Proof.
  induction l as [|p l IH]; [done|].
  now rewrite sort_desc_cons, insert_desc_perm, IH.
Qed.





End Ranking.

(** ** Memory store: similarity search *)

Section SemanticSearch.

Lemma slice_to_nonneg {A : Type} (l : list A) (stop : Z) :
  0 <= stop -> slice_to l stop = take (Z.to_nat stop) l.
Proof.
  intros Hstop. unfold slice_to.
  destruct (Z.ltb_spec stop 0) as [|_]; [lia|].
  destruct (Z.le_gt_cases stop (Z.of_nat (length l))) as [Hle|Hgt].
  - now rewrite Z.min_l by done.
  - rewrite Z.min_r by lia. rewrite Nat2Z.id, !take_ge; [done|lia|lia].
Qed.



(** The loop keeps, in store order, the entries of the user whose score
    is above zero, each with its score. *)
Lemma score_entries_spec (user_id query : string) (entries : list MemoryEntry.t) :
  fits query ->
  Forall (fun e => fits (MemoryEntry.text e)) entries ->
  forall scored,
  exists new,
    score_entries user_id (_vectorize query) entries scored = Returns (scored ++ new)
    /\ new.*2 = filter (fun e => relevant user_id query e) entries
    /\ Forall (fun p => score query p.2 = Returns p.1 /\ above_zero p
                        /\ MemoryEntry.user_id p.2 = user_id) new.
Proof.
  intros Hq. induction 1 as [|e entries He Hes IH]; intros scored.
  - exists []. cbn. now rewrite app_nil_r.
  - cbn [score_entries].
    destruct (decide (MemoryEntry.user_id e = user_id)) as [Hu|Hu].
    + assert (Hskip : bool_decide (MemoryEntry.user_id e ≠ user_id) = false)
        by (apply bool_decide_eq_false_2; tauto).
      rewrite Hskip.
      destruct (cosine_returns (_vectorize query) (_vectorize (MemoryEntry.text e)))
        as [x Hx]; auto using vectorize_counts_nonneg, vectorize_small.
      assert (Hrel : relevant user_id query e = (0 <? x)%float).
      { unfold relevant, score. rewrite Hx. now rewrite bool_decide_eq_true_2. }
      rewrite Hx. cbn [mbind outcome_bind].
      destruct (0 <? x)%float eqn:Hpos.
      * rewrite filter_cons_True by (now rewrite Hrel).
        destruct (IH (scored ++ [(x, e)])) as (new & -> & Hnew & Hall).
        exists ((x, e) :: new). rewrite <- app_assoc. split; [done|].
        cbn. rewrite Hnew. split; [done|].
        constructor; [|done]. cbn. unfold score. auto.
      * rewrite filter_cons_False by (now rewrite Hrel).
        destruct (IH scored) as (new & -> & Hnew & Hall).
        exists new. done.
    + assert (Hskip : bool_decide (MemoryEntry.user_id e ≠ user_id) = true)
        by (now apply bool_decide_eq_true_2).
      assert (Hrel : relevant user_id query e = false).
      { unfold relevant. now rewrite bool_decide_eq_false_2. }
      rewrite Hskip, filter_cons_False by (now rewrite Hrel).
      destruct (IH scored) as (new & -> & Hnew & Hall).
      exists new. done.
Qed.


End SemanticSearch.


(** ** Memory store: recency window *)

Section RecentProperties.

Lemma slice_from_neg {A : Type} (l : list A) (limit : Z) :
  0 < limit ->
  slice_from l (- limit) = drop (length l - Z.to_nat limit) l.
Proof.
  intros Hpos. unfold slice_from.
  destruct (Z.ltb_spec (- limit) 0) as [_|]; [|lia].
  f_equal. lia.
Qed.

(** With a positive [limit], [recent] is the window the specification
    describes: the last [limit] entries of that user, oldest first, and
    all of them when there are fewer. *)
Lemma recent_positive_limit (self : MemoryStore) (user_id : string) (limit : Z) :
  0 < limit ->
  let candidates :=
    filter (fun e => MemoryEntry.user_id e = user_id) (entries self) in
  recent self user_id limit = drop (length candidates - Z.to_nat limit) candidates
  /\ Z.of_nat (length (recent self user_id limit)) <= limit
  /\ Forall (fun e => MemoryEntry.user_id e = user_id) (recent self user_id limit)
  /\ recent self user_id limit `suffix_of` candidates
  /\ recent self user_id limit `sublist_of` entries self
  /\ (Z.of_nat (length candidates) <= limit ->
      recent self user_id limit = candidates).
Proof.
  intros Hpos candidates. unfold recent. fold candidates.
  rewrite slice_from_neg by done.
  assert (Hall : Forall (fun e => MemoryEntry.user_id e = user_id) candidates).
  { apply Forall_forall. intros e He.
    now apply list_elem_of_filter in He as [He _]. }
  split; [done|]. split; [rewrite length_drop; lia|].
  split; [now apply Forall_drop|].
  split; [apply suffix_drop|].
  split.
  { etransitivity; [apply sublist_drop|apply sublist_filter]. }
  intros Hfew. replace (length candidates - Z.to_nat limit)%nat with 0%nat by lia.
  reflexivity.
Qed.

(** With [limit = 0] the slice [candidates[-0:]] is the whole list. *)
Lemma recent_limit_zero (self : MemoryStore) (user_id : string) :
  recent self user_id 0 =
  filter (fun e => MemoryEntry.user_id e = user_id) (entries self).
Proof.
  unfold recent, slice_from. cbn. now rewrite Z.min_l by lia.
Qed.

(** C3, at the input where the code leaves the claim: with two entries of
    user "u-1" in the store, [recent("u-1", 0)] returns both of them, two
    entries for a limit of zero. *)
Theorem recent_limit_zero_returns_all :
  let store := {| entries := [sample_note "u-1" "first"; sample_note "u-2" "other";
                              sample_note "u-1" "second"] |} in
  recent store "u-1" 0 = [sample_note "u-1" "first"; sample_note "u-1" "second"]
  /\ 0 < Z.of_nat (length (recent store "u-1" 0)).
Proof.
  cbv zeta. rewrite recent_limit_zero. split; reflexivity.
Qed.

End RecentProperties.

(** ** Executor *)

Section ExecutorProperties.
Context {W : Type}.
Variable uuid4 : W -> string * W.
Variable utcnow : W -> Z * W.
Variable repr : Value -> string.

Implicit Types (registry : ToolRegistry W) (w : W) (r : ToolResult.t)
  (rs : list ToolResult.t) (step : ActionStep.t).

Lemma run_inv registry name args w o registry' w' :
  run registry name args w = (o, registry', w') -> registry' = registry.
Proof.
  intros Hrun. pose proof (run_registry registry name args w) as Hreg.
  now rewrite Hrun in Hreg.
Qed.

Lemma model_dump_ok r :
  truthy (get (ToolResult.model_dump r) "ok" VNone) = ToolResult.ok r.
Proof. reflexivity. Qed.

(** The three ways out of the loop, read off the reference run. *)
Lemma run_steps_inv registry steps outputs w exit outs registry' w' :
  run_steps registry steps outputs w = (exit, outs, registry', w') ->
  registry' = registry
  /\ exists n rs w1,
       call_all registry (take n steps) w = (Returns rs, w1)
       /\ Forall reports_ok rs
       /\ match exit with
          | Exhausted =>
              n = length steps /\ w' = w1
              /\ outs = outputs ++ (ToolResult.model_dump <$> rs)
          | Halted step r =>
              steps !! n = Some step
              /\ run registry (ActionStep.tool step) (ActionStep.arguments step) w1
                 = (Returns r, registry, w')
              /\ ToolResult.ok r = false
              /\ outs = outputs ++ (ToolResult.model_dump <$> (rs ++ [r]))
          | Propagated exn =>
              exists step,
                steps !! n = Some step
                /\ run registry (ActionStep.tool step) (ActionStep.arguments step) w1
                   = (Raises exn, registry, w')
                /\ outs = outputs ++ (ToolResult.model_dump <$> rs)
          end.
Proof.
  revert outputs w. induction steps as [|s steps IH]; intros outputs w Hloop; cbn in Hloop.
  - injection Hloop as <- <- <- <-. split; [done|].
    exists 0%nat, [], w. cbn. rewrite app_nil_r. repeat split; constructor.
  - destruct (run registry _ _ w) as [[[r0|exn] reg] w0] eqn:Hs.
    + pose proof (run_inv _ _ _ _ _ _ _ Hs) as ->.
      destruct (ToolResult.ok r0) eqn:Hok; cbn in Hloop.
      * apply IH in Hloop as (-> & n & rs & w1 & Hall & Hoks & Hexit).
        split; [done|]. exists (S n), (r0 :: rs), w1. cbn.
        rewrite Hs, Hall. split; [done|]. split; [now constructor|].
        destruct exit as [step r| |exn]; cbn.
        -- destruct Hexit as (? & ? & ? & ->). rewrite <- app_assoc. done.
        -- destruct Hexit as (-> & ? & ->). rewrite <- app_assoc. done.
        -- destruct Hexit as (step & ? & ? & ->). exists step.
           rewrite <- app_assoc. done.
      * injection Hloop as <- <- <- <-. split; [done|].
        exists 0%nat, [], w. cbn. split; [done|]. split; [constructor|]. done.
    + pose proof (run_inv _ _ _ _ _ _ _ Hs) as ->.
      injection Hloop as <- <- <- <-. split; [done|].
      exists 0%nat, [], w. cbn. split; [done|]. split; [constructor|].
      exists s. rewrite app_nil_r. done.
Qed.

(** The loop stops at the first step that reports a failure, whatever
    follows it in the plan. *)
Lemma run_steps_halts registry before step after outputs w rs w1 r w2 :
  call_all registry before w = (Returns rs, w1) ->
  Forall reports_ok rs ->
  run registry (ActionStep.tool step) (ActionStep.arguments step) w1
    = (Returns r, registry, w2) ->
  ToolResult.ok r = false ->
  run_steps registry (before ++ step :: after) outputs w =
    (Halted step r, outputs ++ (ToolResult.model_dump <$> (rs ++ [r])), registry, w2).
Proof.
  revert outputs w rs.
  induction before as [|s before IH]; intros outputs w rs Hall Hoks Hrun Hko; cbn in *.
  - injection Hall as <- <-. rewrite Hrun, Hko. reflexivity.
  - destruct (run registry _ _ w) as [[[r0|exn] reg] w0] eqn:Hs; [|done].
    apply run_inv in Hs as ->.
    destruct (call_all registry before w0) as [[rs0|exn] w3] eqn:Hrest; [|done].
    injection Hall as <- <-. apply Forall_cons in Hoks as [Hok0 Hoks].
    rewrite Hok0. cbn. rewrite (IH _ _ _ Hrest Hoks Hrun Hko).
    now rewrite <- app_assoc.
Qed.

(** The loop runs to the end when every step reports success. *)
Lemma run_steps_exhausts registry steps outputs w rs w1 :
  call_all registry steps w = (Returns rs, w1) ->
  Forall reports_ok rs ->
  run_steps registry steps outputs w =
    (Exhausted, outputs ++ (ToolResult.model_dump <$> rs), registry, w1).
Proof.
  revert outputs w rs.
  induction steps as [|s steps IH]; intros outputs w rs Hall Hoks; cbn in *.
  - injection Hall as <- <-. now rewrite app_nil_r.
  - destruct (run registry _ _ w) as [[[r0|exn] reg] w0] eqn:Hs; [|done].
    apply run_inv in Hs as ->.
    destruct (call_all registry steps w0) as [[rs0|exn] w3] eqn:Hrest; [|done].
    injection Hall as <- <-. apply Forall_cons in Hoks as [Hok0 Hoks].
    rewrite Hok0. cbn. rewrite (IH _ _ _ Hrest Hoks).
    now rewrite <- app_assoc.
Qed.

Lemma call_all_length registry steps w rs w1 :
  call_all registry steps w = (Returns rs, w1) -> length rs = length steps.
Proof.
  revert w rs. induction steps as [|s steps IH]; intros w rs Hall; cbn in *.
  - now injection Hall as <- <-.
  - destruct (run registry _ _ w) as [[[r0|exn] reg] w0] eqn:Hs; [|done].
    apply run_inv in Hs as ->.
    destruct (call_all registry steps w0) as [[rs0|exn] w3] eqn:Hrest; [|done].
    injection Hall as <- <-. cbn. f_equal. eauto.
Qed.

Local Abbreviation execute' := (execute uuid4 utcnow repr).
Local Abbreviation loop_start' := (loop_start uuid4 utcnow).
Local Abbreviation plan_of request :=
  (_plan repr (ExecuteRequest.instruction request) (ExecuteRequest.context request)).

(** [execute] with the reads of the random source and of the clock named
    by the worlds they happen in. *)
Lemma execute_eq (self : WorkflowAutomationAgent W) (request : ExecuteRequest.t) w :
  execute' self request w =
  let task_id := (uuid4 w).1 in
  let plan := plan_of request in
  let record := initial_record uuid4 utcnow repr request w in
  let tasks1 := <[task_id := record]> (tasks self) in
  let memory1 := add (memory self) (conversation_entry uuid4 utcnow request w) in
  match run_steps (tools self) plan [] (loop_start' w) with
  | (Propagated exn, _, registry, w) =>
      (Raises exn, {| tools := registry; memory := memory1; tasks := tasks1 |}, w)
  | (Halted step result, outputs, registry, w) =>
      (Returns (ExecuteResponse.mk task_id failed plan outputs
                  ("Task failed during tool `" +:+ ActionStep.tool step +:+ "`: "
                   +:+ ToolResult.message result)),
       {| tools := registry; memory := memory1;
          tasks := <[task_id := finish record failed outputs (utcnow w).1]> tasks1 |},
       (utcnow w).2)
  | (Exhausted, outputs, registry, w) =>
      let summary := _summarize plan outputs in
      let w2 := (utcnow w).2 in
      (Returns (ExecuteResponse.mk task_id completed plan outputs summary),
       {| tools := registry;
          memory :=
            add memory1
              (MemoryEntry.mk task (ExecuteRequest.user_id request) summary
                 (<["task_id" := VStr task_id]>
                  (<["status" := VStr "completed"]> ∅))
                 (utcnow w2).1);
          tasks := <[task_id := finish record completed outputs (utcnow w).1]> tasks1 |},
       (utcnow w2).2)
  end.
Proof.
  unfold execute, loop_start, initial_record, conversation_entry.
  destruct (uuid4 w) as [task_id w0]. cbn [fst snd].
  destruct (utcnow w0) as [t1 w1]. cbn [fst snd].
  destruct (utcnow w1) as [t2 w2]. cbn [fst snd].
  destruct (utcnow w2) as [t3 w3]. cbn [fst snd].
  destruct (run_steps _ _ _ w3) as [[[[step r| |exn] outs] reg] w4]; cbv zeta.
  - destruct (utcnow w4) as [t4 w5]. reflexivity.
  - destruct (utcnow w4) as [t4 w5]. cbn [fst snd].
    destruct (utcnow w5) as [t5 w6]. reflexivity.
  - reflexivity.
Qed.

Lemma initial_record_fields (request : ExecuteRequest.t) w :
  let record := initial_record uuid4 utcnow repr request w in
  TaskRecord.task_id record = (uuid4 w).1
  /\ TaskRecord.status record = running
  /\ TaskRecord.plan record = plan_of request
  /\ TaskRecord.outputs record = [].
Proof.
  unfold initial_record. destruct (uuid4 w) as [task_id w0].
  destruct (utcnow w0) as [t1 w1]. destruct (utcnow w1) as [t2 w2]. done.
Qed.

Lemma conversation_entry_fields (request : ExecuteRequest.t) w :
  let entry := conversation_entry uuid4 utcnow request w in
  MemoryEntry.kind entry = conversation
  /\ MemoryEntry.user_id entry = ExecuteRequest.user_id request
  /\ MemoryEntry.text entry = ExecuteRequest.instruction request
  /\ MemoryEntry.metadata entry = {[ "task_id" := VStr (uuid4 w).1 ]}.
Proof.
  unfold conversation_entry. destruct (uuid4 w) as [task_id w0].
  destruct (utcnow w0) as [t1 w1]. destruct (utcnow w1) as [t2 w2].
  destruct (utcnow w2) as [t3 w3]. done.
Qed.

Lemma count_successful rs :
  Forall reports_ok rs ->
  length (filter (fun result => truthy (get result "ok" VNone))
            (ToolResult.model_dump <$> rs)) = length rs.
Proof.
  induction 1 as [|r rs Hok _ IH]; [done|].
  cbn [fmap list_fmap]. rewrite filter_cons_True.
  - cbn. now rewrite IH.
  - rewrite model_dump_ok, Hok. exact I.
Qed.

(** C2. When step [k] of the plan is the first to report [ok = false]
    (the [k-1] steps [before] it report success when called in order, and
    [step] then reports a failure), [execute] returns a response with
    status [failed] whose outputs are the results of the first [k] steps,
    the record stored under the task identifier has the same status and
    outputs, the summary names the tool of the failing step and repeats
    its message, and the steps after [k] are not run: the world is left
    as step [k] left it (but for the clock read), and the loop ends the
    same way whatever steps follow step [k]. *)
Theorem execute_short_circuit (self : WorkflowAutomationAgent W)
    (request : ExecuteRequest.t) w before step after rs w1 r w2 :
  plan_of request = before ++ step :: after ->
  call_all (tools self) before (loop_start' w) = (Returns rs, w1) ->
  Forall reports_ok rs ->
  run (tools self) (ActionStep.tool step) (ActionStep.arguments step) w1
    = (Returns r, tools self, w2) ->
  ToolResult.ok r = false ->
  exists response self',
    execute' self request w = (Returns response, self', (utcnow w2).2)
    /\ ExecuteResponse.status response = failed
    /\ ExecuteResponse.outputs response = ToolResult.model_dump <$> (rs ++ [r])
    /\ length (ExecuteResponse.outputs response) = S (length before)
    /\ ExecuteResponse.summary response =
         "Task failed during tool `" +:+ ActionStep.tool step +:+ "`: "
         +:+ ToolResult.message r
    /\ (exists record,
          tasks self' !! ExecuteResponse.task_id response = Some record
          /\ TaskRecord.status record = failed
          /\ TaskRecord.outputs record = ExecuteResponse.outputs response)
    /\ (forall others,
          run_steps (tools self) (before ++ step :: others) [] (loop_start' w) =
            (Halted step r, ToolResult.model_dump <$> (rs ++ [r]), tools self, w2)).
Proof.
  intros Hplan Hall Hoks Hrun Hko.
  assert (Hloop : forall others,
             run_steps (tools self) (before ++ step :: others) [] (loop_start' w) =
               (Halted step r, ToolResult.model_dump <$> (rs ++ [r]), tools self, w2)).
  { intros others.
    now rewrite (run_steps_halts _ _ _ others [] _ _ _ _ _ Hall Hoks Hrun Hko). }
  rewrite execute_eq. cbv zeta. rewrite Hplan, (Hloop after).
  eexists _, _. split; [reflexivity|]. cbn.
  split; [done|]. split; [done|].
  split.
  { rewrite length_fmap, length_app, (call_all_length _ _ _ _ _ Hall). cbn. lia. }
  split; [done|]. split; [|exact Hloop].
  eexists. rewrite lookup_insert_eq. done.
Qed.

(** C4. When every step of the plan reports [ok = true], [execute]
    returns a response with status [completed] and one output per step;
    the stored record agrees; and the memory store receives, after the
    [conversation] entry, exactly one [task] entry for the user of the
    request, whose text is the summary of the response and whose metadata
    hold the task identifier and the status "completed". *)
Theorem execute_completes (self : WorkflowAutomationAgent W)
    (request : ExecuteRequest.t) w rs w1 :
  call_all (tools self) (plan_of request) (loop_start' w) = (Returns rs, w1) ->
  Forall reports_ok rs ->
  exists response self' w' summary_entry,
    execute' self request w = (Returns response, self', w')
    /\ ExecuteResponse.status response = completed
    /\ ExecuteResponse.outputs response = ToolResult.model_dump <$> rs
    /\ length (ExecuteResponse.outputs response) = length (plan_of request)
    /\ ExecuteResponse.summary response =
         "Executed " +:+ pretty (length (plan_of request))
         +:+ " planned steps with " +:+ pretty (length (plan_of request))
         +:+ " successful tool calls. "
         +:+ "Outputs include database extraction, artifacts, and automation actions."
    /\ (exists record,
          tasks self' !! ExecuteResponse.task_id response = Some record
          /\ TaskRecord.status record = completed
          /\ TaskRecord.outputs record = ExecuteResponse.outputs response)
    /\ entries (memory self') =
         entries (memory self)
         ++ [conversation_entry uuid4 utcnow request w; summary_entry]
    /\ MemoryEntry.kind summary_entry = task
    /\ MemoryEntry.user_id summary_entry = ExecuteRequest.user_id request
    /\ MemoryEntry.text summary_entry = ExecuteResponse.summary response
    /\ MemoryEntry.metadata summary_entry =
         <["task_id" := VStr (ExecuteResponse.task_id response)]>
         (<["status" := VStr "completed"]> ∅).
Proof.
  intros Hall Hoks.
  rewrite execute_eq. cbv zeta.
  rewrite (run_steps_exhausts _ _ [] _ _ _ Hall Hoks).
  eexists _, _, _, _. split; [reflexivity|]. cbn.
  split; [done|]. split; [done|].
  split. { now rewrite length_fmap, (call_all_length _ _ _ _ _ Hall). }
  split.
  { unfold _summarize.
    now rewrite (count_successful _ Hoks), (call_all_length _ _ _ _ _ Hall). }
  split. { eexists. rewrite lookup_insert_eq. done. }
  split; [now rewrite <- app_assoc|]. repeat split.
Qed.

(** C10. When [execute] ends with status [failed], the memory store is
    the one before the call followed by one entry: the [conversation]
    entry of the request (its text is the instruction, its metadata hold
    the task identifier), which depends on the request and on the clock
    as read before the loop only; no [task] entry is written and no other
    entry is touched. *)
Theorem execute_failed_memory (self : WorkflowAutomationAgent W)
    (request : ExecuteRequest.t) w response self' w' :
  execute' self request w = (Returns response, self', w') ->
  ExecuteResponse.status response = failed ->
  let entry := conversation_entry uuid4 utcnow request w in
  entries (memory self') = entries (memory self) ++ [entry]
  /\ MemoryEntry.kind entry = conversation
  /\ MemoryEntry.user_id entry = ExecuteRequest.user_id request
  /\ MemoryEntry.text entry = ExecuteRequest.instruction request
  /\ MemoryEntry.metadata entry =
       {[ "task_id" := VStr (ExecuteResponse.task_id response) ]}.
Proof.
  intros Hexec Hfailed entry.
  destruct (conversation_entry_fields request w) as (Hk & Hu & Ht & Hm).
  rewrite execute_eq in Hexec. cbv zeta in Hexec.
  destruct (run_steps _ _ _ _) as [[[[step r| |exn] outs] reg] w4].
  - injection Hexec as <- <- <-. cbn. done.
  - injection Hexec as <- <- <-. discriminate Hfailed.
  - discriminate Hexec.
Qed.

(** The [conversation] entry is already in the store when a handler
    raises: it is written before the first tool is run. *)
Lemma execute_raises_memory (self : WorkflowAutomationAgent W)
    (request : ExecuteRequest.t) w exn self' w' :
  execute' self request w = (Raises exn, self', w') ->
  entries (memory self') =
    entries (memory self) ++ [conversation_entry uuid4 utcnow request w].
Proof.
  intros Hexec. rewrite execute_eq in Hexec. cbv zeta in Hexec.
  destruct (run_steps _ _ _ _) as [[[[step r| |exn'] outs] reg] w4];
    [discriminate| discriminate|].
  now injection Hexec as <- <- <-.
Qed.

(** C1, as the code has it. The record that [execute] leaves under the
    new identifier has at most as many outputs as plan steps; with status
    [completed] it has exactly as many; with status [failed] its outputs
    are the results of the first [len(outputs)] steps called in order,
    the last of them (index [len(outputs)-1]) is the one that reported
    the failure and the earlier ones reported success, and no later step
    was attempted: the world is left as that step left it, but for the
    clock read. Equal lengths do not imply [completed]: the failing step
    may be the last one. *)
Theorem execute_record_outputs (self : WorkflowAutomationAgent W)
    (request : ExecuteRequest.t) w result self' w' :
  execute' self request w = (result, self', w') ->
  exists record,
    tasks self' !! (uuid4 w).1 = Some record
    /\ TaskRecord.plan record = plan_of request
    /\ (length (TaskRecord.outputs record) <= length (TaskRecord.plan record))%nat
    /\ (TaskRecord.status record = completed ->
        length (TaskRecord.outputs record) = length (TaskRecord.plan record))
    /\ (length (TaskRecord.outputs record) = length (TaskRecord.plan record) ->
        TaskRecord.status record = completed \/ TaskRecord.status record = failed)
    /\ (TaskRecord.status record = failed ->
        exists rs r step w1 w2,
          TaskRecord.outputs record = ToolResult.model_dump <$> (rs ++ [r])
          /\ Forall reports_ok rs
          /\ ToolResult.ok r = false
          /\ TaskRecord.plan record !! (length (TaskRecord.outputs record) - 1)%nat
             = Some step
          /\ call_all (tools self)
               (take (length (TaskRecord.outputs record) - 1) (TaskRecord.plan record))
               (loop_start' w) = (Returns rs, w1)
          /\ run (tools self) (ActionStep.tool step) (ActionStep.arguments step) w1
             = (Returns r, tools self, w2)
          /\ w' = (utcnow w2).2).
Proof.
  intros Hexec. rewrite execute_eq in Hexec. cbv zeta in Hexec.
  destruct (initial_record_fields request w) as (_ & Hst & Hpl & Hout).
  destruct (run_steps _ _ _ _) as [[[[step r| |exn] outs] reg] w4] eqn:Hloop;
    apply run_steps_inv in Hloop as (-> & n & rs & w1 & Hall & Hoks & Hexit);
    injection Hexec as <- <- <-; cbn [tasks];
    (eexists; split; [apply lookup_insert_eq|]); cbn.
  - destruct Hexit as (Hstep & Hrun & Hko & ->). cbn [app].
    assert (Hn : (n < length (plan_of request))%nat) by (eapply lookup_lt_Some; eauto).
    assert (Hlen : length rs = n).
    { rewrite (call_all_length _ _ _ _ _ Hall), length_take. lia. }
    rewrite length_fmap, length_app, Hlen, Hpl. cbn [length].
    replace (n + 1 - 1)%nat with n by lia.
    split; [done|]. split; [lia|]. split; [done|]. split; [auto|]. intros _.
    exists rs, r, step, w1, w4. done.
  - destruct Hexit as (-> & -> & ->). cbn [app].
    rewrite firstn_all in Hall.
    rewrite length_fmap, (call_all_length _ _ _ _ _ Hall), Hpl.
    split; [done|]. split; [lia|]. split; [done|]. split; [auto|]. discriminate.
  - rewrite Hst, Hout, Hpl. cbn.
    split; [done|]. split; [lia|]. split; [discriminate|]. split; [|discriminate].
    intros Hempty. symmetry in Hempty. apply length_zero_iff_nil in Hempty.
    now destruct (plan_nonempty repr (ExecuteRequest.instruction request)
                    (ExecuteRequest.context request)).
Qed.

End ExecutorProperties.

(** C1, as stated, fails: with no tool registered, the one-step fallback
    plan of "hello" fails at its only step, and the record has as many
    outputs as plan steps although its status is [failed]. *)
Lemma record_full_but_failed :
  let self' := (execute counter_uuid4 counter_utcnow plain_repr
                  (blank_agent ToolRegistry_init)
                  (ExecuteRequest.mk "u-1" "hello" ∅) 0%nat).1.2 in
  exists record,
    tasks self' !! "task-0" = Some record
    /\ length (TaskRecord.outputs record) = length (TaskRecord.plan record)
    /\ TaskRecord.status record = failed
    /\ ~ (length (TaskRecord.outputs record) = length (TaskRecord.plan record)
          <-> TaskRecord.status record = completed).
Proof.
  cbv zeta. eexists. split; [vm_compute; reflexivity|].
  split; [reflexivity|]. split; [reflexivity|].
  intros [Hcompleted _]. specialize (Hcompleted eq_refl). discriminate Hcompleted.
Qed.

Lemma execute_record_outputs_witness :
  exists record,
    tasks (execute counter_uuid4 counter_utcnow plain_repr
             (blank_agent faulty_registry) sales_request 0%nat).1.2 !! "task-0"
      = Some record
    /\ TaskRecord.status record = failed
    /\ length (TaskRecord.outputs record) = 2%nat
    /\ length (TaskRecord.plan record) = 3%nat.
Proof.
  destruct (execute_record_outputs counter_uuid4 counter_utcnow plain_repr
              (blank_agent faulty_registry) sales_request 0%nat _ _ _ eq_refl)
    as (record & Hrecord & _).
  exists record. split; [exact Hrecord|].
  vm_compute in Hrecord. injection Hrecord as <-. repeat split.
Defined.

Lemma execute_short_circuit_witness :
  exists response self',
    execute counter_uuid4 counter_utcnow plain_repr
      (blank_agent faulty_registry) sales_request 0%nat
      = (Returns response, self', 7%nat)
    /\ ExecuteResponse.status response = failed
    /\ length (ExecuteResponse.outputs response) = 2%nat
    /\ ExecuteResponse.summary response =
         "Task failed during tool `report_generator`: disk full".
Proof.
  destruct (execute_short_circuit counter_uuid4 counter_utcnow plain_repr
              (blank_agent faulty_registry) sales_request 0%nat
              [sql_query_step plain_repr (VStr "2026-W11")]
              (sales_report_step plain_repr (VStr "2026-W11"))
              [email_step (VList [VStr "management@company.com"])]
              [ToolResult.mk "sql_query" true "done" ∅] 5%nat
              (ToolResult.mk "report_generator" false "disk full" ∅) 6%nat
              eq_refl eq_refl ltac:(repeat constructor) eq_refl eq_refl)
    as (response & self' & Hexec & Hstatus & _ & Hlen & Hsummary & _).
  exists response, self'. repeat split; assumption.
Defined.

Lemma execute_completes_witness :
  exists response self' w',
    execute counter_uuid4 counter_utcnow plain_repr
      (blank_agent working_registry) sales_request 0%nat
      = (Returns response, self', w')
    /\ ExecuteResponse.status response = completed
    /\ length (ExecuteResponse.outputs response) = 3%nat
    /\ length (entries (memory self')) = 2%nat.
Proof.
  destruct (execute_completes counter_uuid4 counter_utcnow plain_repr
              (blank_agent working_registry) sales_request 0%nat
              [ToolResult.mk "sql_query" true "done" ∅;
               ToolResult.mk "report_generator" true "done" ∅;
               ToolResult.mk "email_sender" true "done" ∅] 7%nat
              eq_refl ltac:(repeat constructor))
    as (response & self' & w' & entry & Hexec & Hstatus & _ & Hlen & _ & _ & Hmem & _).
  exists response, self', w'. split; [exact Hexec|]. split; [exact Hstatus|].
  split; [exact Hlen|]. rewrite Hmem. reflexivity.
Defined.

Lemma execute_failed_memory_witness :
  length (entries (memory (execute counter_uuid4 counter_utcnow plain_repr
                             (blank_agent faulty_registry) sales_request 0%nat).1.2))
  = 1%nat.
Proof.
  destruct (execute_failed_memory counter_uuid4 counter_utcnow plain_repr
              (blank_agent faulty_registry) sales_request 0%nat _ _ _
              eq_refl eq_refl) as (Hmem & _).
  exact (f_equal length Hmem).
Defined.

(** ** Executor: task table, memory log and faults *)

Section ExecutorFrame.
Context {W : Type}.
Variable uuid4 : W -> string * W.
Variable utcnow : W -> Z * W.
Variable repr : Value -> string.

Implicit Types (registry : ToolRegistry W) (w : W) (r : ToolResult.t)
  (rs : list ToolResult.t) (step : ActionStep.t)
  (self : WorkflowAutomationAgent W) (request : ExecuteRequest.t).

Local Abbreviation execute' := (execute uuid4 utcnow repr).
Local Abbreviation loop_start' := (loop_start uuid4 utcnow).
Local Abbreviation plan_of request :=
  (_plan repr (ExecuteRequest.instruction request) (ExecuteRequest.context request)).

Lemma initial_record_request request w :
  let record := initial_record uuid4 utcnow repr request w in
  TaskRecord.user_id record = ExecuteRequest.user_id request
  /\ TaskRecord.instruction record = ExecuteRequest.instruction request.
Proof.
  unfold initial_record. destruct (uuid4 w) as [task_id w0].
  destruct (utcnow w0) as [t1 w1]. destruct (utcnow w1) as [t2 w2]. done.
Qed.

(** The loop passes on the exception of the first handler that raises. *)
Lemma run_steps_raises registry before step after outputs w rs w1 exn w2 :
  call_all registry before w = (Returns rs, w1) ->
  Forall reports_ok rs ->
  run registry (ActionStep.tool step) (ActionStep.arguments step) w1
    = (Raises exn, registry, w2) ->
  run_steps registry (before ++ step :: after) outputs w =
    (Propagated exn, outputs ++ (ToolResult.model_dump <$> rs), registry, w2).
Proof.
  revert outputs w rs.
  induction before as [|s before IH]; intros outputs w rs Hall Hoks Hrun; cbn in *.
  - injection Hall as <- <-. rewrite Hrun. now rewrite app_nil_r.
  - destruct (run registry _ _ w) as [[[r0|exn0] reg] w0] eqn:Hs; [|done].
    apply run_inv in Hs as ->.
    destruct (call_all registry before w0) as [[rs0|exn0] w3] eqn:Hrest; [|done].
    injection Hall as <- <-. apply Forall_cons in Hoks as [Hok0 Hoks].
    rewrite Hok0. cbn. rewrite (IH _ _ _ Hrest Hoks Hrun).
    now rewrite <- app_assoc.
Qed.

(** After [execute] has returned, [get_task] with the identifier of the
    response finds a record that agrees with the response (status, plan,
    outputs) and with the request (user, instruction); its status is
    [completed] or [failed], never [pending] or [running]. *)
Theorem execute_then_get_task self request w response self' w' :
  execute' self request w = (Returns response, self', w') ->
  exists record,
    get_task self' (ExecuteResponse.task_id response) = Some record
    /\ TaskRecord.task_id record = ExecuteResponse.task_id response
    /\ TaskRecord.user_id record = ExecuteRequest.user_id request
    /\ TaskRecord.instruction record = ExecuteRequest.instruction request
    /\ TaskRecord.status record = ExecuteResponse.status response
    /\ TaskRecord.plan record = ExecuteResponse.plan response
    /\ TaskRecord.outputs record = ExecuteResponse.outputs response
    /\ (ExecuteResponse.status response = completed
        \/ ExecuteResponse.status response = failed).
Proof.
  intros Hexec. rewrite execute_eq in Hexec. cbv zeta in Hexec.
  destruct (initial_record_fields uuid4 utcnow repr request w) as (Hid & _ & Hpl & _).
  destruct (initial_record_request request w) as (Hu & Hi).
  cbv zeta in *. unfold get_task.
  destruct (run_steps _ _ _ _) as [[[[step r| |exn] outs] reg] w4];
    [| |discriminate]; injection Hexec as <- <- <-; cbn;
    (eexists; split; [apply lookup_insert_eq|]); cbn; auto 10.
Qed.

(** [execute] writes one key of the task table, the identifier it drew:
    every other identifier is looked up as before the call, whatever the
    outcome, and the registry is the one before the call. *)
Theorem execute_keeps_other_tasks self request w result self' w' task_id :
  execute' self request w = (result, self', w') ->
  task_id <> (uuid4 w).1 ->
  get_task self' task_id = get_task self task_id /\ tools self' = tools self.
Proof.
  intros Hexec Hne. rewrite execute_eq in Hexec. cbv zeta in Hexec.
  unfold get_task.
  destruct (run_steps _ _ _ _) as [[[[step r| |exn] outs] reg] w4] eqn:Hloop;
    apply run_steps_inv in Hloop as (-> & _);
    injection Hexec as <- <- <-; cbn;
    now rewrite !lookup_insert_ne by done.
Qed.

(** The memory log only grows under [execute]: the entries before the
    call stay in place, and one entry (the call failed or raised) or two
    (it completed) are appended, all for the user of the request. *)
Theorem execute_appends_memory self request w result self' w' :
  execute uuid4 utcnow repr self request w = (result, self', w') ->
  exists added,
    entries (memory self') = entries (memory self) ++ added
    /\ Forall (fun e => MemoryEntry.user_id e = ExecuteRequest.user_id request) added
    /\ match result with
       | Returns response =>
           match ExecuteResponse.status response with
           | completed => length added = 2%nat
           | _ => length added = 1%nat
           end
       | Raises _ => length added = 1%nat
       end.
Proof.
  intros Hexec. rewrite execute_eq in Hexec. cbv zeta in Hexec.
  destruct (conversation_entry_fields uuid4 utcnow request w) as (_ & Hu & _).
  cbv zeta in Hu.
  destruct (run_steps _ _ _ _) as [[[[step r| |exn] outs] reg] w4];
    injection Hexec as <- <- <-; cbn.
  - eexists [_]. repeat split; auto.
  - eexists [_; _]. rewrite <- app_assoc. repeat split; auto.
  - eexists [_]. repeat split; auto.
Qed.

(** When the handler of step [k] raises after [k-1] successful steps,
    [execute] raises the same exception: no response is built, the record
    stays [running] with no outputs, the memory holds the [conversation]
    entry only, and the world is the one the raising handler left. *)
Theorem execute_propagates_exception self request w before step after rs w1 exn w2 :
  plan_of request = before ++ step :: after ->
  call_all (tools self) before (loop_start' w) = (Returns rs, w1) ->
  Forall reports_ok rs ->
  run (tools self) (ActionStep.tool step) (ActionStep.arguments step) w1
    = (Raises exn, tools self, w2) ->
  exists self' record,
    execute' self request w = (Raises exn, self', w2)
    /\ get_task self' (uuid4 w).1 = Some record
    /\ TaskRecord.status record = running
    /\ TaskRecord.outputs record = []
    /\ entries (memory self') =
         entries (memory self) ++ [conversation_entry uuid4 utcnow request w].
Proof.
  intros Hplan Hall Hoks Hrun.
  destruct (initial_record_fields uuid4 utcnow repr request w) as (_ & Hst & _ & Hout).
  rewrite execute_eq. cbv zeta.
  rewrite Hplan, (run_steps_raises _ _ _ after [] _ _ _ _ _ Hall Hoks Hrun).
  eexists _, _. split; [reflexivity|]. unfold get_task. cbn.
  rewrite lookup_insert_eq. done.
Qed.

(** A plan step whose tool is not registered ends the task as a reported
    failure, not as an exception: the last output is the "Unknown tool"
    result, the summary repeats it, and the world is untouched by that
    step. *)
Theorem execute_unknown_tool self request w before step after rs w1 :
  plan_of request = before ++ step :: after ->
  call_all (tools self) before (loop_start' w) = (Returns rs, w1) ->
  Forall reports_ok rs ->
  _tools (tools self) !! ActionStep.tool step = None ->
  exists response self',
    execute' self request w = (Returns response, self', (utcnow w1).2)
    /\ ExecuteResponse.status response = failed
    /\ last (ExecuteResponse.outputs response) =
         Some (ToolResult.model_dump
                 (ToolResult.mk (ActionStep.tool step) false
                    ("Unknown tool: " +:+ ActionStep.tool step) ∅))
    /\ length (ExecuteResponse.outputs response) = S (length before)
    /\ ExecuteResponse.summary response =
         "Task failed during tool `" +:+ ActionStep.tool step +:+ "`: "
         +:+ ("Unknown tool: " +:+ ActionStep.tool step).
Proof.
  intros Hplan Hall Hoks Hfree.
  assert (Hrun : run (tools self) (ActionStep.tool step) (ActionStep.arguments step) w1
                 = (Returns (ToolResult.mk (ActionStep.tool step) false
                               ("Unknown tool: " +:+ ActionStep.tool step) ∅),
                    tools self, w1)).
  { unfold run, ToolHandler in *. now rewrite Hfree. }
  rewrite execute_eq. cbv zeta.
  rewrite Hplan, (run_steps_halts _ _ _ after [] _ _ _ _ _ Hall Hoks Hrun eq_refl).
  eexists _, _. split; [reflexivity|]. cbn.
  split; [done|]. split.
  { rewrite fmap_app. apply last_snoc. }
  split; [|done].
  rewrite length_fmap, length_app, (call_all_length _ _ _ _ _ Hall). cbn. lia.
Qed.

End ExecutorFrame.

(** ** Tool registry: registration and discovery *)

Section RegistryDiscovery.
Context {W : Type}.
Implicit Types (self : ToolRegistry W) (name : string) (l : list string).

Lemma string_compare_refl (a : string) : (a ?= a)%string = Eq.
Proof.
  induction a as [|c a IH]; cbn; [done|].
  unfold Ascii.compare. now rewrite N.compare_refl.
Qed.

Lemma string_compare_trans (a b c : string) :
  (a ?= b)%string = Lt -> (b ?= c)%string = Lt -> (a ?= c)%string = Lt.
Proof.
  revert b c. induction a as [|x a IH]; intros [|y b] [|z c]; cbn; try done.
  unfold Ascii.compare.
  destruct (N.compare_spec (N_of_ascii x) (N_of_ascii y)) as [Hxy|Hxy|Hxy];
    destruct (N.compare_spec (N_of_ascii y) (N_of_ascii z)) as [Hyz|Hyz|Hyz];
    destruct (N.compare_spec (N_of_ascii x) (N_of_ascii z)) as [Hxz|Hxz|Hxz];
    try done; try lia; eauto.
Qed.

Lemma string_ltb_irrefl (a : string) : String.ltb a a = false.
Proof. unfold String.ltb. now rewrite string_compare_refl. Qed.

Lemma string_ltb_trans (a b c : string) :
  String.ltb a b = true -> String.ltb b c = true -> String.ltb a c = true.
Proof.
  unfold String.ltb. intros Hab Hbc.
  destruct (a ?= b)%string eqn:H1; try done.
  destruct (b ?= c)%string eqn:H2; try done.
  now rewrite (string_compare_trans a b c).
Qed.

Lemma string_ltb_total (a b : string) :
  a <> b -> String.ltb a b = false -> String.ltb b a = true.
Proof.
  unfold String.ltb. intros Hne. rewrite (String.compare_antisym b a).
  destruct (a ?= b)%string eqn:Hab; cbn; try done.
  apply String.compare_eq_iff in Hab. congruence.
Qed.

Lemma insert_sorted_perm (x : string) l : insert_sorted x l ≡ₚ x :: l.
Proof.
  induction l as [|y l IH]; cbn; [done|].
  destruct (String.ltb y x); [|done]. rewrite IH. apply Permutation_swap.
Qed.

Lemma sorted_perm l : sorted l ≡ₚ l.
Proof.
  induction l as [|x l IH]; [done|].
  change (sorted (x :: l)) with (insert_sorted x (sorted l)).
  now rewrite insert_sorted_perm, IH.
Qed.

Lemma insert_sorted_increasing (x : string) l :
  x ∉ l ->
  StronglySorted (fun a b => String.ltb a b = true) l ->
  StronglySorted (fun a b => String.ltb a b = true) (insert_sorted x l).
Proof.
  intros Hx Hs. induction l as [|y l IH]; cbn.
  - repeat constructor.
  - apply not_elem_of_cons in Hx as [Hxy Hx].
    apply StronglySorted_inv in Hs as [Hs Hy].
    destruct (String.ltb y x) eqn:Hyx.
    + constructor; [now apply IH|].
      rewrite insert_sorted_perm. now constructor.
    + assert (Hlt : String.ltb x y = true) by now apply string_ltb_total.
      constructor; [now constructor|]. constructor; [done|].
      rewrite Forall_forall in Hy |- *. intros z Hz.
      eapply string_ltb_trans; eauto.
Qed.

Lemma sorted_increasing l :
  NoDup l -> StronglySorted (fun a b => String.ltb a b = true) (sorted l).
Proof.
  induction 1 as [|x l Hx Hl IH]; [constructor|].
  change (sorted (x :: l)) with (insert_sorted x (sorted l)).
  apply insert_sorted_increasing; [|done]. now rewrite sorted_perm.
Qed.

Lemma increasing_unique l1 l2 :
  StronglySorted (fun a b => String.ltb a b = true) l1 ->
  StronglySorted (fun a b => String.ltb a b = true) l2 ->
  (forall x, x ∈ l1 <-> x ∈ l2) -> l1 = l2.
Proof.
  intros H1 H2 Hsame.
  assert (Hnodup : forall l, StronglySorted (fun a b => String.ltb a b = true) l
                             -> NoDup l).
  { induction 1 as [|x l Hs IH Hx]; constructor; [|done].
    intros Hin. rewrite Forall_forall in Hx. specialize (Hx x Hin).
    now rewrite string_ltb_irrefl in Hx. }
  apply (StronglySorted_unique_strong (fun a b => String.ltb a b = true));
    [|done|done|apply NoDup_Permutation; auto].
  intros a b _ _ Hab Hba.
  pose proof (string_ltb_trans a b a Hab Hba) as Haa.
  now rewrite string_ltb_irrefl in Haa.
Qed.

Lemma list_tools_elem self name :
  name ∈ list_tools self <-> is_Some (_tools self !! name).
Proof.
  unfold list_tools. rewrite sorted_perm, list_elem_of_fmap. split.
  - intros ([k h] & -> & Hin). apply elem_of_map_to_list in Hin. now exists h.
  - intros [h Hh]. exists (name, h). split; [done|]. now apply elem_of_map_to_list.
Qed.

Lemma list_tools_increasing self :
  StronglySorted (fun a b => String.ltb a b = true) (list_tools self).
Proof. apply sorted_increasing, NoDup_fst_map_to_list. Qed.

(** [list_tools] lists exactly the registered names, each once, in
    strictly increasing order of code points. *)
Theorem list_tools_registered_sorted self :
  StronglySorted (fun a b => String.ltb a b = true) (list_tools self)
  /\ NoDup (list_tools self)
  /\ forall name, name ∈ list_tools self <-> is_Some (_tools self !! name).
Proof.
  split; [apply list_tools_increasing|]. split; [|apply list_tools_elem].
  unfold list_tools. rewrite sorted_perm. apply NoDup_fst_map_to_list.
Qed.

(** Registering a new name puts it at its place in the listing;
    registering a name again leaves the listing as it is. *)
Theorem list_tools_register self name (handler : ToolHandler W) :
  list_tools (register self name handler) =
    match _tools self !! name with
    | Some _ => list_tools self
    | None => insert_sorted name (list_tools self)
    end.
Proof.
  destruct (_tools self !! name) as [h|] eqn:Hname.
  - apply increasing_unique; try apply list_tools_increasing.
    intros x. rewrite !list_tools_elem. unfold register. cbn.
    destruct (decide (x = name)) as [->|Hne].
    + rewrite lookup_insert_eq, Hname. split; eauto.
    + now rewrite lookup_insert_ne.
  - assert (Hfresh : name ∉ list_tools self).
    { rewrite list_tools_elem, Hname. now intros [? ?]. }
    apply increasing_unique; try apply list_tools_increasing.
    { apply insert_sorted_increasing; [done|apply list_tools_increasing]. }
    intros x. rewrite insert_sorted_perm, elem_of_cons, !list_tools_elem.
    unfold register. cbn.
    destruct (decide (x = name)) as [->|Hne].
    + rewrite lookup_insert_eq. split; eauto.
    + rewrite lookup_insert_ne by done. split; [auto|]. intros [?|?]; done.
Qed.

(** After [register(name, handler)], running [name] is calling
    [handler], also when [name] was registered before (the last
    registration wins); running any other name goes on as before. *)
Theorem register_then_run self name (handler : ToolHandler W) name'
    (args : gmap string Value) (w : W) :
  let after := run (register self name handler) name' args w in
  after.1.2 = register self name handler
  /\ (after.1.1, after.2) =
       if decide (name' = name) then handler args w
       else ((run self name' args w).1.1, (run self name' args w).2).
Proof.
  cbv zeta. split; [apply run_registry|].
  destruct (decide (name' = name)) as [->|Hne].
  - unfold run, register, ToolHandler in *. cbn.
    rewrite lookup_insert_eq. now destruct (handler args w).
  - destruct (_tools self !! name') as [h|] eqn:Hname;
      unfold run, register, ToolHandler in *; cbn;
      rewrite lookup_insert_ne by done; rewrite Hname; [|done].
    now destruct (h args w).
Qed.

End RegistryDiscovery.

(** ** Planner: tools, arguments and letter case *)

Section PlannerShape.
Variable repr : Value -> string.

(** The tools of a plan, in order: the two sales steps, the email step,
    the meeting step and the CRM step, each present exactly when its
    keyword test matches, and the fallback report when none does. *)
Theorem plan_tool_sequence (instruction : string) (context : gmap string Value) :
  let text := lower instruction in
  ActionStep.tool <$> _plan repr instruction context =
    (if wants_sales_summary text then ["sql_query"; "report_generator"] else [])
    ++ (if wants_email text then ["email_sender"] else [])
    ++ (if wants_meeting_summary text then ["meeting_summarizer"] else [])
    ++ (if wants_crm text then ["crm_update"] else [])
    ++ (if wants_sales_summary text || wants_email text
           || wants_meeting_summary text || wants_crm text
        then [] else ["report_generator"]).
Proof.
  cbv zeta. unfold _plan.
  destruct (wants_sales_summary _), (wants_email _),
    (wants_meeting_summary _), (wants_crm _); reflexivity.
Qed.

(** The values a plan takes from the context are passed to the tools as
    they are, whatever their type; a missing key gives the default of
    the source. *)
Theorem plan_arguments_from_context (instruction : string)
    (context : gmap string Value) :
  let text := lower instruction in
  let plan := _plan repr instruction context in
  (wants_email text = true ->
   exists step, step ∈ plan /\ ActionStep.tool step = "email_sender"
     /\ ActionStep.arguments step !! "to" =
          Some (default (VList [VStr "management@company.com"])
                        (context !! "recipients")))
  /\ (wants_meeting_summary text = true ->
      exists step, step ∈ plan /\ ActionStep.tool step = "meeting_summarizer"
        /\ ActionStep.arguments step =
             {[ "transcript" := default (VStr "") (context !! "transcript") ]})
  /\ (wants_crm text = true ->
      exists step, step ∈ plan /\ ActionStep.tool step = "crm_update"
        /\ ActionStep.arguments step !! "customer_id" =
             Some (default (VStr "CUST-001") (context !! "customer_id"))
        /\ ActionStep.arguments step !! "note" =
             Some (default (VStr "Automated follow-up logged.")
                           (context !! "crm_note"))).
Proof.
  cbv zeta.
  split; [|split]; intros Hwant.
  - exists (email_step (get context "recipients"
                          (VList [VStr "management@company.com"]))).
    split; [|unfold get; destruct (context !! _); done].
    unfold _plan. rewrite Hwant.
    destruct (wants_sales_summary _), (wants_meeting_summary _), (wants_crm _);
      cbn [app];
      repeat first [ apply list_elem_of_here | apply list_elem_of_further ].
  - exists (meeting_step (get context "transcript" (VStr ""))).
    split; [|unfold get; destruct (context !! _); done].
    unfold _plan. rewrite Hwant.
    destruct (wants_sales_summary _), (wants_email _), (wants_crm _);
      cbn [app];
      repeat first [ apply list_elem_of_here | apply list_elem_of_further ].
  - exists (crm_step (get context "customer_id" (VStr "CUST-001"))
                     (get context "crm_note" (VStr "Automated follow-up logged."))).
    split; [|unfold get; do 2 destruct (context !! _); done].
    unfold _plan. rewrite Hwant.
    destruct (wants_sales_summary _), (wants_email _), (wants_meeting_summary _);
      cbn [app];
      repeat first [ apply list_elem_of_here | apply list_elem_of_further ].
Qed.

(** Two instructions that differ in letter case only get the same plan,
    as soon as a keyword test matches (the fallback step quotes the
    instruction as written). *)
Theorem plan_ignores_case (first second : string) (context : gmap string Value) :
  lower first = lower second ->
  wants_sales_summary (lower first) || wants_email (lower first)
  || wants_meeting_summary (lower first) || wants_crm (lower first) = true ->
  _plan repr first context = _plan repr second context.
Proof.
  intros Hsame Hmatch. unfold _plan. rewrite <- Hsame.
  destruct (wants_sales_summary _), (wants_email _),
    (wants_meeting_summary _), (wants_crm _); try discriminate Hmatch;
    reflexivity.
Qed.

End PlannerShape.

(** ** The tools of [build_tools] *)

Section ToolsProperties.
Context {W : Type}.
Variable repr : Value -> string.
Variable int_of_str : string -> outcome Z.
Variable int_of_float : float -> outcome Z.
Variable fetchall : string -> Value -> W -> outcome (list Value) * W.
Variable insert_crm_update : string -> Value -> Value -> W -> outcome unit * W.
Variable joinpath : string -> Value -> outcome string.
Variable mkdir : string -> W -> outcome unit * W.
Variable exists_ : string -> W -> bool.
Variable read_text : string -> W -> outcome string * W.
Variable write_text : string -> string -> W -> outcome unit * W.
Variable json_loads : string -> outcome Value.
Variable json_dumps : Value -> outcome string.
Variable _ensure_seed_data : string -> W -> outcome unit * W.

Local Abbreviation build_tools' :=
  (build_tools repr int_of_str int_of_float fetchall insert_crm_update joinpath
     mkdir exists_ read_text write_text json_loads json_dumps _ensure_seed_data).

(** The registry that [build_tools] returns lists five tools, and every
    step of every plan names one of them: on this registry no planned
    step is answered with "Unknown tool". *)
Theorem build_tools_covers_plans (db_path out_dir : string) (w w' : W)
    (registry : ToolRegistry W) :
  build_tools' db_path out_dir w = (Returns registry, w') ->
  list_tools registry =
    ["crm_update"; "email_sender"; "meeting_summarizer"; "report_generator";
     "sql_query"]
  /\ forall instruction context step,
       step ∈ _plan repr instruction context ->
       is_Some (_tools registry !! ActionStep.tool step).
Proof.
  unfold build_tools. intros Hbuild.
  destruct (mkdir out_dir w) as [[[]|exn] w1]; [|discriminate].
  destruct (_ensure_seed_data db_path w1) as [[[]|exn] w2]; [|discriminate].
  injection Hbuild as <- <-. split.
  - apply increasing_unique; [apply list_tools_increasing|repeat constructor|].
    intros name. rewrite list_tools_elem. unfold register. cbn [_tools].
    rewrite !lookup_insert_is_Some', !elem_of_cons, elem_of_nil.
    unfold ToolRegistry_init. cbn [_tools]. rewrite lookup_empty.
    split.
    + intros [<-|[<-|[<-|[<-|[<-|Hnone]]]]];
        [| | | | |now apply is_Some_None in Hnone];
        repeat first [left; reflexivity | right].
    + intros [->|[->|[->|[->|[->|[]]]]]];
        repeat first [left; reflexivity | right].
  - intros instruction context step Hin. unfold _plan in Hin.
    destruct (wants_sales_summary _), (wants_email _),
      (wants_meeting_summary _), (wants_crm _); cbn [app] in Hin;
      repeat (apply elem_of_cons in Hin as [->|Hin]);
      try (now apply elem_of_nil in Hin);
      eexists; reflexivity.
Qed.


(** With a query, the tool passes the query to the database and either
    raises what the database raises or reports success with the rows
    and their number. *)
Theorem sql_query_with_query (db_path : string) (args : gmap string Value)
    (w : W) :
  truthy (get args "query" (VStr "")) = true ->
  match fetchall db_path (get args "query" (VStr "")) w with
  | (Returns rows, w1) =>
      exists r, sql_query_tool fetchall db_path args w = (Returns r, w1)
                /\ ToolResult.ok r = true
                /\ ToolResult.payload r !! "rows" = Some (VList rows)
                /\ ToolResult.payload r !! "count"
                   = Some (VInt (Z.of_nat (length rows)))
  | (Raises exn, w1) =>
      sql_query_tool fetchall db_path args w = (Raises exn, w1)
  end.
Proof.
  intros Hquery. unfold sql_query_tool. rewrite Hquery. cbn.
  destruct (fetchall _ _ _) as [[rows|exn] w1]; [|done].
  eexists. split; [done|]. repeat split.
Qed.

(** The report of an unhandled request goes to a path that depends on
    neither the instruction nor the task: two such requests write to one
    and the same file, the second after the first. *)
Theorem unhandled_reports_share_a_file (out_dir destination : string)
    (first second : string) (w w1 w2 : W) :
  joinpath out_dir (VStr "unhandled-request.txt") = Returns destination ->
  write_text destination (unhandled_report first) w = (Returns (), w1) ->
  write_text destination (unhandled_report second) w1 = (Returns (), w2) ->
  report_generator_tool repr joinpath write_text out_dir
    (ActionStep.arguments (unhandled_step first)) w
    = (Returns (ToolResult.mk "report_generator" true "Report generated"
                  {[ "path" := VStr destination ]}), w1)
  /\ report_generator_tool repr joinpath write_text out_dir
       (ActionStep.arguments (unhandled_step second)) w1
     = (Returns (ToolResult.mk "report_generator" true "Report generated"
                   {[ "path" := VStr destination ]}), w2).
Proof.
  intros Hpath Hfirst Hsecond.
  assert (Hstep : forall instruction w0 w0',
             write_text destination (unhandled_report instruction) w0
               = (Returns (), w0') ->
             report_generator_tool repr joinpath write_text out_dir
               (ActionStep.arguments (unhandled_step instruction)) w0
             = (Returns (ToolResult.mk "report_generator" true "Report generated"
                           {[ "path" := VStr destination ]}), w0')).
  { intros instruction w0 w0' Hwrite. unfold report_generator_tool.
    change (get (ActionStep.arguments (unhandled_step instruction)) "filename"
              (VStr "report.txt")) with (VStr "unhandled-request.txt").
    rewrite Hpath.
    change (get (ActionStep.arguments (unhandled_step instruction)) "title"
              (VStr "Business Report")) with (VStr "Unhandled Automation Request").
    change (get (ActionStep.arguments (unhandled_step instruction)) "body"
              (VStr "No content")) with (VStr ("Instruction: " +:+ instruction)).
    match goal with
    | |- context [write_text destination ?c w0] =>
        change c with (unhandled_report instruction)
    end.
    now rewrite Hwrite. }
  split; now apply Hstep.
Qed.

(** An email log that holds JSON other than a list makes the email tool
    raise [AttributeError] (from [previous.append]); the log is read but
    not written. *)
Theorem email_log_must_be_a_list (out_dir log_path text : string)
    (args : gmap string Value) (w w1 : W) (v : Value) :
  joinpath out_dir (VStr "email_log.json") = Returns log_path ->
  exists_ log_path w = true ->
  read_text log_path w = (Returns text, w1) ->
  json_loads text = Returns v ->
  (forall entries, v <> VList entries) ->
  email_sender_tool joinpath exists_ read_text write_text json_loads json_dumps
    out_dir args w = (Raises "AttributeError", w1).
Proof.
  intros Hpath Hexists Hread Hloads Hlist. unfold email_sender_tool.
  rewrite Hpath, Hexists, Hread, Hloads.
  destruct v; try done. now destruct (Hlist l).
Qed.

End ToolsProperties.

(** ** The meeting summarizer *)

Section MeetingSummarizer.
Context {W : Type}.
Variable int_of_str : string -> outcome Z.
Variable int_of_float : float -> outcome Z.

Implicit Types (s t cur rest chars : string) (c sep : ascii).

Local Abbreviation tool := (@meeting_summarizer_tool W int_of_str int_of_float).

Lemma append_cons c s t : String c s +:+ t = String c (s +:+ t).
Proof. reflexivity. Qed.

Lemma append_assoc s t rest : (s +:+ t) +:+ rest = s +:+ (t +:+ rest).
Proof. induction s as [|c s IH]; [done|]. rewrite !append_cons. now f_equal. Qed.

Lemma append_nil_r s : s +:+ "" = s.
Proof. induction s as [|c s IH]; [done|]. rewrite append_cons. now f_equal. Qed.

Lemma mem_char_append c s t :
  mem_char c (s +:+ t) = mem_char c s || mem_char c t.
Proof.
  induction s as [|d s IH]; [done|]. rewrite append_cons. cbn [mem_char].
  rewrite IH. now rewrite orb_assoc.
Qed.

(** A piece without separator is read through. *)
Lemma split_on_append sep s : forall cur rest,
  mem_char sep s = false ->
  split_on sep cur (s +:+ rest) = split_on sep (cur +:+ s) rest.
Proof.
  induction s as [|c s IH]; intros cur rest Hs.
  - now rewrite append_nil_r.
  - cbn in Hs. apply orb_false_elim in Hs as [Hc Hs].
    rewrite append_cons. cbn [split_on].
    rewrite Ascii.eqb_sym, Hc, IH by done.
    now rewrite append_assoc.
Qed.

Lemma split_on_pieces sep s : forall cur,
  mem_char sep cur = false ->
  Forall (fun piece => mem_char sep piece = false) (split_on sep cur s).
Proof.
  induction s as [|c s IH]; intros cur Hcur; cbn.
  - now constructor.
  - destruct (Ascii.eqb c sep) eqn:Hc.
    + constructor; [done|]. now apply IH.
    + apply IH. rewrite mem_char_append, Hcur. cbn.
      now rewrite Ascii.eqb_sym, Hc.
Qed.

Lemma lstrip_keeps_absent c chars s :
  mem_char c s = false -> mem_char c (lstrip chars s) = false.
Proof.
  induction s as [|d s IH]; cbn; [done|]. intros Hs.
  apply orb_false_elim in Hs as [Hd Hs].
  destruct (mem_char d chars); [now apply IH|]. cbn. now rewrite Hd, Hs.
Qed.

Lemma rstrip_keeps_absent c chars s :
  mem_char c s = false -> mem_char c (rstrip chars s) = false.
Proof.
  induction s as [|d s IH]; cbn; [done|]. intros Hs.
  apply orb_false_elim in Hs as [Hd Hs]. specialize (IH Hs).
  destruct (rstrip chars s) as [|e r].
  - destruct (mem_char d chars); cbn; [done|]. now rewrite Hd.
  - cbn in *. now rewrite Hd, IH.
Qed.

Lemma lstrip_head chars s c rest :
  lstrip chars s = String c rest -> mem_char c chars = false.
Proof.
  induction s as [|d s IH]; cbn; [done|].
  destruct (mem_char d chars) eqn:Hd; [done|]. now intros [= <- <-].
Qed.

Lemma lstrip_fixed chars c rest :
  mem_char c chars = false -> lstrip chars (String c rest) = String c rest.
Proof. intros Hc. cbn. now rewrite Hc. Qed.

Lemma rstrip_head chars s c rest :
  rstrip chars s = String c rest -> exists rest', s = String c rest'.
Proof.
  destruct s as [|d s]; cbn; [done|].
  destruct (rstrip chars s); [destruct (mem_char d chars)|];
    intros [= <- <-]; eauto.
Qed.

Lemma rstrip_idempotent chars s : rstrip chars (rstrip chars s) = rstrip chars s.
Proof.
  induction s as [|d s IH]; cbn; [done|].
  destruct (rstrip chars s) as [|e r] eqn:Hr.
  - destruct (mem_char d chars) eqn:Hd; cbn; [done|]. now rewrite Hd.
  - cbn [rstrip] in *. now rewrite IH.
Qed.

(** A stripped string is left as it is by another strip. *)
Lemma strip_idempotent chars s : strip chars (strip chars s) = strip chars s.
Proof.
  unfold strip.
  destruct (rstrip chars (lstrip chars s)) as [|c rest] eqn:Hr; [done|].
  destruct (rstrip_head _ _ _ _ Hr) as [rest' Hl].
  rewrite lstrip_fixed by (eapply lstrip_head; eauto).
  now rewrite <- Hr, rstrip_idempotent.
Qed.

Lemma lstrip_append chars cur s :
  (forall c, mem_char c cur = true -> mem_char c chars = true) ->
  lstrip chars (cur +:+ s) = lstrip chars s.
Proof.
  induction cur as [|d cur IH]; intros Hcur; [done|].
  rewrite append_cons. cbn [lstrip].
  rewrite (Hcur d) by (cbn; now rewrite Ascii.eqb_refl).
  apply IH. intros c Hc. apply Hcur. cbn. now rewrite Hc, orb_true_r.
Qed.

(** A sentence: not empty, without full stop, stripped. *)
Lemma sentences_of_elem t s :
  s ∈ sentences_of t ->
  s <> "" /\ mem_char "." s = false /\ strip whitespace s = s.
Proof.
  unfold sentences_of. intros Hin.
  apply list_elem_of_filter in Hin as [Hne Hin].
  apply list_elem_of_fmap in Hin as (piece & -> & Hpiece).
  split; [done|]. split; [|apply strip_idempotent].
  pose proof (split_on_pieces "." t "" eq_refl) as Hall.
  rewrite Forall_forall in Hall. specialize (Hall piece Hpiece).
  unfold strip. now apply rstrip_keeps_absent, lstrip_keeps_absent.
Qed.

Lemma strip_after_blank cur s :
  (forall c, mem_char c cur = true -> mem_char c whitespace = true) ->
  s <> "" -> strip whitespace s = s ->
  strip whitespace (cur +:+ s) = s.
Proof.
  intros Hcur Hne Hs. unfold strip in *. rewrite lstrip_append by done. exact Hs.
Qed.

(** Reading a summary back: the sentences of [s1. s2. ... sk.] are
    [s1, ..., sk]. *)
Lemma sentences_of_join (sentences : list string) : forall cur,
  sentences <> [] ->
  Forall (fun s => s <> "" /\ mem_char "." s = false
                   /\ strip whitespace s = s) sentences ->
  (forall c, mem_char c cur = true -> mem_char c whitespace = true) ->
  filter (fun s => s ≠ "")
    (strip whitespace <$> split_on "." cur (join ". " sentences +:+ "."))
  = sentences.
Proof.
  induction sentences as [|s [|s' rest] IH]; intros cur Hne Hall Hcur; [done| |].
  - apply Forall_cons in Hall as [(Hs & Hdot & Hstrip) _].
    change (join ". " [s]) with s. rewrite split_on_append by done.
    change (split_on "." (cur +:+ s) ".") with [cur +:+ s; ""].
    change (strip whitespace <$> [cur +:+ s; ""])
      with [strip whitespace (cur +:+ s); ""].
    rewrite strip_after_blank by done.
    rewrite filter_cons_True by done.
    now rewrite filter_cons_False by (intros H; now apply H).
  - apply Forall_cons in Hall as [(Hs & Hdot & Hstrip) Hall].
    change (join ". " (s :: s' :: rest))
      with (s +:+ ". " +:+ join ". " (s' :: rest)).
    rewrite !append_assoc, split_on_append by done.
    set (X := join ". " (s' :: rest) +:+ ".").
    change (split_on "." (cur +:+ s) (". " +:+ X))
      with ((cur +:+ s) :: split_on "." " " X).
    rewrite fmap_cons, strip_after_blank by done.
    rewrite filter_cons_True by done. f_equal.
    apply IH; [done|done|].
    intros c Hc. cbn in Hc. rewrite orb_false_r in Hc.
    apply Ascii.eqb_eq in Hc as ->. reflexivity.
Qed.

Lemma lstrip_all chars s :
  (forall c, mem_char c s = true -> mem_char c chars = true) ->
  lstrip chars s = "".
Proof.
  induction s as [|d s IH]; intros Hs; cbn; [done|].
  rewrite (Hs d) by (cbn; now rewrite Ascii.eqb_refl).
  apply IH. intros c Hc. apply Hs. cbn. now rewrite Hc, orb_true_r.
Qed.

Lemma split_on_blank s : forall cur,
  (forall c, mem_char c cur = true -> mem_char c whitespace = true) ->
  (forall c, mem_char c s = true -> c = "."%char \/ mem_char c whitespace = true) ->
  Forall (fun piece => forall c, mem_char c piece = true ->
                                 mem_char c whitespace = true)
         (split_on "." cur s).
Proof.
  induction s as [|d s IH]; intros cur Hcur Hs; cbn [split_on].
  - now constructor.
  - assert (Hrest : forall c, mem_char c s = true ->
                              c = "."%char \/ mem_char c whitespace = true).
    { intros c Hc. apply Hs. cbn. now rewrite Hc, orb_true_r. }
    destruct (Ascii.eqb d ".") eqn:Hd.
    + constructor; [done|]. now apply IH.
    + apply IH; [|done]. intros c Hc.
      rewrite mem_char_append in Hc. apply orb_true_iff in Hc as [Hc|Hc]; [auto|].
      cbn in Hc. rewrite orb_false_r in Hc. apply Ascii.eqb_eq in Hc as ->.
      destruct (Hs d) as [->|Hws]; [cbn; now rewrite Ascii.eqb_refl| |done].
      now rewrite Ascii.eqb_refl in Hd.
Qed.

Lemma tool_on_text (args : gmap string Value) (transcript : string) (n : Z) (w : W) :
  get args "transcript" (VStr "") = VStr transcript ->
  int int_of_str int_of_float (get args "max_sentences" (VInt 3)) = Returns n ->
  tool args w =
    (Returns (ToolResult.mk "meeting_summarizer" true "Meeting summarized"
                {[ "summary" :=
                     VStr (join ". " (slice_to (sentences_of transcript) n)
                           +:+ match sentences_of transcript with
                               | [] => ""
                               | _ => "."
                               end) ]}), w).
Proof.
  intros Ht Hn. unfold meeting_summarizer_tool. now rewrite Ht, Hn.
Qed.

(** A transcript of full stops and white space only has no sentence:
    its summary is the empty string, whatever [max_sentences] is, and
    the tool reports success without touching the world. *)
Theorem meeting_summary_of_blank_transcript (args : gmap string Value)
    (transcript : string) (n : Z) (w : W) :
  get args "transcript" (VStr "") = VStr transcript ->
  int int_of_str int_of_float (get args "max_sentences" (VInt 3)) = Returns n ->
  (forall c, mem_char c transcript = true ->
             c = "."%char \/ isspace c = true) ->
  tool args w =
    (Returns (ToolResult.mk "meeting_summarizer" true "Meeting summarized"
                {[ "summary" := VStr "" ]}), w).
Proof.
  intros Ht Hn Hblank. rewrite (tool_on_text args transcript n w Ht Hn).
  assert (Hws : forall c, isspace c = true -> mem_char c whitespace = true).
  { intros c. destruct c as [[] [] [] [] [] [] [] []]; vm_compute; done. }
  assert (Hnone : sentences_of transcript = []).
  { unfold sentences_of.
    pose proof (split_on_blank transcript "" ltac:(done)
                  ltac:(intros c Hc; destruct (Hblank c Hc); auto)) as Hall.
    induction Hall as [|piece pieces Hpiece _ IH]; [done|].
    rewrite fmap_cons, filter_cons_False; [exact IH|].
    intros Hne. apply Hne. unfold strip. now rewrite lstrip_all. }
  rewrite Hnone. now destruct n.
Qed.

(** With [max_sentences] at least 1, the summary reads back as itself:
    summarizing a summary returns the same result. *)
Theorem meeting_summary_is_stable (args : gmap string Value)
    (transcript : string) (n : Z) (w : W) :
  get args "transcript" (VStr "") = VStr transcript ->
  int int_of_str int_of_float (get args "max_sentences" (VInt 3)) = Returns n ->
  1 <= n ->
  exists summary,
    tool args w =
      (Returns (ToolResult.mk "meeting_summarizer" true "Meeting summarized"
                  {[ "summary" := VStr summary ]}), w)
    /\ tool (<["transcript" := VStr summary]> args) w = tool args w.
Proof.
  intros Ht Hn Hpos. rewrite (tool_on_text args transcript n w Ht Hn).
  eexists. split; [reflexivity|].
  set (kept := slice_to (sentences_of transcript) n).
  assert (Hkept : kept = take (Z.to_nat n) (sentences_of transcript)).
  { subst kept. now rewrite slice_to_nonneg by lia. }
  assert (Hback :
    sentences_of (join ". " kept +:+ match sentences_of transcript with
                                     | [] => ""
                                     | _ => "."
                                     end) = kept).
  { destruct (sentences_of transcript) as [|s rest] eqn:Hs.
    - rewrite Hkept, take_nil. reflexivity.
    - unfold sentences_of at 1. apply sentences_of_join.
      + rewrite Hkept. destruct (Z.to_nat n) eqn:Hz; [lia|done].
      + rewrite Hkept. apply Forall_take, Forall_forall.
        intros x Hx. apply (sentences_of_elem transcript). now rewrite Hs.
      + done. }
  rewrite (tool_on_text _ (join ". " kept +:+ match sentences_of transcript with
                                              | [] => ""
                                              | _ => "."
                                              end) n w).
  - rewrite Hback.
    assert (Hsame : slice_to kept n = kept).
    { rewrite slice_to_nonneg by lia. rewrite Hkept. apply take_idemp. }
    rewrite Hsame. do 4 f_equal.
    destruct (sentences_of transcript) as [|s rest]; [now rewrite Hkept, take_nil|].
    rewrite Hkept. now destruct (Z.to_nat n) eqn:Hz; [lia|].
  - unfold get. now rewrite lookup_insert_eq.
  - unfold get in *. now rewrite lookup_insert_ne.
Qed.

(** With [max_sentences = 0] and a transcript that has a sentence, no
    sentence is kept but the closing full stop is still added: the
    summary is a lone ".". *)
Theorem meeting_summary_of_zero_sentences (args : gmap string Value)
    (transcript : string) (w : W) :
  get args "transcript" (VStr "") = VStr transcript ->
  int int_of_str int_of_float (get args "max_sentences" (VInt 3)) = Returns 0 ->
  sentences_of transcript <> [] ->
  tool args w =
    (Returns (ToolResult.mk "meeting_summarizer" true "Meeting summarized"
                {[ "summary" := VStr "." ]}), w).
Proof.
  intros Ht Hn Hsome. rewrite (tool_on_text args transcript 0 w Ht Hn).
  destruct (sentences_of transcript); [done|]. reflexivity.
Qed.

(** A transcript that is not a string makes the tool raise
    [AttributeError] (from [transcript.split]). *)
Lemma tool_on_other (args : gmap string Value) (n : Z) (w : W) :
  (forall text, get args "transcript" (VStr "") <> VStr text) ->
  int int_of_str int_of_float (get args "max_sentences" (VInt 3)) = Returns n ->
  tool args w = (Raises "AttributeError", w).
Proof.
  intros Ht Hn. unfold meeting_summarizer_tool. rewrite Hn.
  destruct (get args "transcript" (VStr "")); try done. now destruct (Ht s).
Qed.

End MeetingSummarizer.

(** ** A transcript from the context, through planner, tool and executor *)

Section MeetingThroughExecute.
Context {W : Type}.
Variable uuid4 : W -> string * W.
Variable utcnow : W -> Z * W.
Variable repr : Value -> string.
Variable int_of_str : string -> outcome Z.
Variable int_of_float : float -> outcome Z.

(** The planner passes [context["transcript"]] on unchecked, so a value
    that is not a string (a number, a list, null) makes [execute] raise
    [AttributeError] instead of returning a failed task: here for an
    instruction whose plan starts with the meeting step. *)
Theorem execute_with_non_text_transcript (self : WorkflowAutomationAgent W)
    (request : ExecuteRequest.t) (v : Value) (w : W) :
  wants_meeting_summary (lower (ExecuteRequest.instruction request)) = true ->
  wants_sales_summary (lower (ExecuteRequest.instruction request)) = false ->
  wants_email (lower (ExecuteRequest.instruction request)) = false ->
  ExecuteRequest.context request !! "transcript" = Some v ->
  (forall s, v <> VStr s) ->
  _tools (tools self) !! "meeting_summarizer"
    = Some (meeting_summarizer_tool int_of_str int_of_float) ->
  exists self',
    execute uuid4 utcnow repr self request w
      = (Raises "AttributeError", self', loop_start uuid4 utcnow w)
    /\ (exists record, get_task self' (uuid4 w).1 = Some record
                       /\ TaskRecord.status record = running).
Proof.
  intros Hmeet Hsales Hemail Hv Hnot Htool.
  assert (Hplan : exists after,
             _plan repr (ExecuteRequest.instruction request)
               (ExecuteRequest.context request)
             = [] ++ meeting_step v :: after).
  { unfold _plan, get. rewrite Hsales, Hemail, Hmeet, Hv.
    destruct (wants_crm _); cbn; eauto. }
  destruct Hplan as [after Hplan].
  assert (Hrun : run (tools self) (ActionStep.tool (meeting_step v))
                   (ActionStep.arguments (meeting_step v)) (loop_start uuid4 utcnow w)
                 = (Raises "AttributeError", tools self, loop_start uuid4 utcnow w)).
  { unfold run, ToolHandler in *. cbn [ActionStep.tool meeting_step].
    rewrite Htool.
    rewrite (tool_on_other int_of_str int_of_float _ 3); [done| |].
    - intros s. unfold get. cbn. rewrite lookup_singleton_eq. apply Hnot.
    - reflexivity. }
  destruct (initial_record_fields uuid4 utcnow repr request w) as (_ & Hst & _).
  rewrite execute_eq. cbv zeta.
  rewrite Hplan, (run_steps_raises _ [] _ after [] _ [] _ _ _ eq_refl
                    (Forall_nil_2 _) Hrun).
  eexists. split; [reflexivity|]. unfold get_task. cbn.
  rewrite lookup_insert_eq. eauto.
Qed.

End MeetingThroughExecute.

(** ** Memory store: the log and its users *)

Section MemoryLog.

Lemma slice_from_nonneg {A : Type} (l : list A) (start : Z) :
  0 <= start -> slice_from l start = drop (Z.to_nat start) l.
Proof.
  intros Hstart. unfold slice_from.
  destruct (Z.ltb_spec start 0) as [|_]; [lia|].
  destruct (Z.le_gt_cases start (Z.of_nat (length l))) as [Hle|Hgt].
  - now rewrite Z.min_l by done.
  - rewrite Z.min_r by lia. rewrite Nat2Z.id, !drop_ge; [done|lia|lia].
Qed.

Lemma candidates_add (self : MemoryStore) (entry : MemoryEntry.t) (user_id : string) :
  filter (fun e => MemoryEntry.user_id e = user_id) (entries (add self entry))
  = filter (fun e => MemoryEntry.user_id e = user_id) (entries self)
    ++ (if decide (MemoryEntry.user_id entry = user_id) then [entry] else []).
Proof.
  unfold add. cbn [entries]. now rewrite filter_app.
Qed.

(** An entry just added is the newest one [recent] returns for its user,
    whatever the positive limit. *)
Theorem add_then_recent (self : MemoryStore) (entry : MemoryEntry.t) (limit : Z) :
  1 <= limit ->
  exists older,
    recent (add self entry) (MemoryEntry.user_id entry) limit = older ++ [entry]
    /\ older `suffix_of` filter (fun e => MemoryEntry.user_id e = MemoryEntry.user_id entry)
                           (entries self).
Proof.
  intros Hlimit. unfold recent. rewrite candidates_add.
  rewrite decide_True by done.
  set (candidates := filter _ (entries self)).
  rewrite slice_from_neg by lia.
  rewrite length_app. cbn [length].
  exists (drop (length candidates + 1 - Z.to_nat limit) candidates). split.
  - rewrite drop_app_le by lia. done.
  - apply suffix_drop.
Qed.

Lemma score_entries_app (user_id : string) (query_vector : gmap string Z)
    (front back : list MemoryEntry.t) (scored : list (float * MemoryEntry.t)) :
  score_entries user_id query_vector (front ++ back) scored
  = scored' ← score_entries user_id query_vector front scored;
    score_entries user_id query_vector back scored'.
Proof.
  revert scored. induction front as [|e front IH]; intros scored; [done|].
  cbn [app score_entries].
  destruct (bool_decide _); [apply IH|].
  destruct (_cosine _ _) as [x|exn]; [|done]. cbn [mbind outcome_bind].
  destruct (0 <? x)%float; apply IH.
Qed.

(** Entries of one user are invisible to the others: adding an entry
    changes neither [recent] nor [semantic_search] for any other user. *)
Theorem add_keeps_other_users (self : MemoryStore) (entry : MemoryEntry.t)
    (user_id query : string) (limit : Z) :
  MemoryEntry.user_id entry <> user_id ->
  recent (add self entry) user_id limit = recent self user_id limit
  /\ semantic_search (add self entry) user_id query limit
     = semantic_search self user_id query limit.
Proof.
  intros Hother. split.
  - unfold recent. rewrite candidates_add, decide_False by done.
    now rewrite app_nil_r.
  - unfold semantic_search, add. cbn [entries]. rewrite score_entries_app.
    destruct (score_entries _ _ (entries self) []) as [scored|exn]; [|done].
    cbn [mbind outcome_bind score_entries].
    now rewrite bool_decide_eq_true_2.
Qed.

(** A negative limit does not fail: [candidates[-limit:]] then starts at
    index [|limit|], so [recent] drops the oldest [|limit|] entries of
    the user and returns all the others. *)
Theorem recent_negative_limit (self : MemoryStore) (user_id : string) (limit : Z) :
  limit < 0 ->
  recent self user_id limit
  = drop (Z.to_nat (- limit))
      (filter (fun e => MemoryEntry.user_id e = user_id) (entries self)).
Proof.
  intros Hneg. unfold recent. now rewrite slice_from_nonneg by lia.
Qed.

End MemoryLog.

(** ** Memory store: what the search finds *)

Section SearchProperties.

Lemma slice_to_sublist {A : Type} (l : list A) (stop : Z) :
  slice_to l stop `sublist_of` l.
Proof. unfold slice_to. apply sublist_take. Qed.

Lemma vectorize_without_tokens (text : string) :
  Forall (fun t => strip punctuation t = "") (split text) ->
  _vectorize text = ∅.
Proof.
  intros Hall. unfold _vectorize.
  assert (Hnone : filter (fun t => t ≠ "")
                    ((fun t => lower (strip punctuation t)) <$> split text) = []).
  { induction Hall as [|t ts Ht Hts IH]; [done|].
    rewrite fmap_cons, filter_cons_False; [exact IH|].
    rewrite Ht. cbn. tauto. }
  now rewrite Hnone.
Qed.

Lemma score_entries_empty_query (user_id : string) (entries : list MemoryEntry.t)
    (scored : list (float * MemoryEntry.t)) :
  score_entries user_id ∅ entries scored = Returns scored.
Proof.
  induction entries as [|e entries IH]; [done|].
  cbn [score_entries]. destruct (bool_decide _); [exact IH|].
  unfold _cosine. rewrite bool_decide_eq_true_2 by done. exact IH.
Qed.

(** A query without a token (empty, blank, or punctuation only) finds
    nothing, whatever the store holds and whatever the limit. *)
Theorem semantic_search_without_tokens (self : MemoryStore)
    (user_id query : string) (limit : Z) :
  Forall (fun t => strip punctuation t = "") (split query) ->
  semantic_search self user_id query limit = Returns [].
Proof.
  intros Hall. unfold semantic_search.
  rewrite (vectorize_without_tokens query Hall), score_entries_empty_query.
  cbn [mbind outcome_bind sort_desc foldr]. unfold slice_to.
  now rewrite take_nil.
Qed.

Lemma shared_token_or_disjoint (a b : gmap string Z) :
  (exists t, is_Some (a !! t) /\ is_Some (b !! t))
  \/ (forall t, a !! t = None \/ b !! t = None).
Proof.
  destruct (decide (Exists (fun p => is_Some (b !! p.1)) (map_to_list a)))
    as [Hex|Hno].
  - left. apply Exists_exists in Hex as ([t v] & Hin & Hb).
    apply elem_of_map_to_list in Hin. exists t. split; [eauto|exact Hb].
  - right. intros t. destruct (a !! t) as [v|] eqn:Ha; [|now left].
    right. destruct (b !! t) as [v'|] eqn:Hb; [|done].
    destruct Hno. apply Exists_exists. exists (t, v). split.
    + now apply elem_of_map_to_list.
    + cbn. rewrite Hb. eauto.
Qed.

Lemma semantic_search_members (self : MemoryStore) (user_id query : string)
    (limit : Z) :
  fits query ->
  Forall (fun e => fits (MemoryEntry.text e)) (entries self) ->
  exists scored : list (float * MemoryEntry.t),
    semantic_search self user_id query limit
      = Returns (slice_to (sort_desc scored) limit).*2
    /\ scored.*2 = filter (fun e => relevant user_id query e) (entries self)
    /\ Forall (fun p => score query p.2 = Returns p.1 /\ above_zero p
                        /\ MemoryEntry.user_id p.2 = user_id) scored.
Proof.
  intros Hq Hes.
  destruct (score_entries_spec user_id query (entries self) Hq Hes [])
    as (scored & Hloop & Hkept & Hall).
  cbn [app] in Hloop. exists scored. unfold semantic_search. now rewrite Hloop.
Qed.

Lemma found_among_scored (scored : list (float * MemoryEntry.t)) (limit : Z)
    (e : MemoryEntry.t) :
  e ∈ (slice_to (sort_desc scored) limit).*2 ->
  exists p, p ∈ scored /\ e = p.2.
Proof.
  intros He. apply list_elem_of_fmap in He as (p & -> & Hp).
  exists p. split; [|done]. rewrite <- (sort_desc_perm scored).
  eapply elem_of_sublist; [exact Hp|apply slice_to_sublist].
Qed.

(** For texts of admissible length [semantic_search] returns, and every
    entry it returns is an entry of the store that belongs to the user
    and has at least one token in common with the query. *)
Theorem semantic_search_shares_token (self : MemoryStore) (user_id query : string)
    (limit : Z) :
  fits query ->
  Forall (fun e => fits (MemoryEntry.text e)) (entries self) ->
  exists found,
    semantic_search self user_id query limit = Returns found
    /\ Forall (fun e => e ∈ entries self
                 /\ MemoryEntry.user_id e = user_id
                 /\ exists token,
                      is_Some (_vectorize query !! token)
                      /\ is_Some (_vectorize (MemoryEntry.text e) !! token)) found.
Proof.
  intros Hq Hes.
  destruct (semantic_search_members self user_id query limit Hq Hes)
    as (scored & Hsearch & Hkept & Hall).
  eexists. split; [exact Hsearch|].
  apply Forall_forall. intros e He.
  apply found_among_scored in He as (p & Hin & ->).
  rewrite Forall_forall in Hall. rewrite Forall_forall in Hes.
  destruct (Hall p Hin) as (Hscore & Hpos & Hu).
  assert (Hmem : p.2 ∈ entries self).
  { assert (Hp2 : p.2 ∈ scored.*2) by (apply list_elem_of_fmap; eauto).
    rewrite Hkept in Hp2. now apply list_elem_of_filter in Hp2 as [_ ?]. }
  split; [exact Hmem|]. split; [exact Hu|].
  destruct (shared_token_or_disjoint (_vectorize query)
              (_vectorize (MemoryEntry.text p.2))) as [Hshared|Hdisj]; [exact Hshared|].
  exfalso. unfold score in Hscore.
  assert (Hbig : 2 ^ 500 < 2 ^ 1023) by (apply Z.pow_lt_mono_r; lia).
  rewrite cosine_disjoint in Hscore.
  - injection Hscore as Hzero. unfold above_zero in Hpos.
    rewrite <- Hzero in Hpos. discriminate Hpos.
  - exact Hdisj.
  - pose proof (vectorize_small query Hq). lia.
  - pose proof (vectorize_small _ (Hes _ Hmem)). lia.
Qed.

Lemma isspace_lower (c : ascii) : isspace (lower_char c) = isspace c.
Proof. destruct c as [[] [] [] [] [] [] [] []]; reflexivity. Qed.

Lemma punctuation_lower (c : ascii) :
  mem_char (lower_char c) punctuation = mem_char c punctuation.
Proof. destruct c as [[] [] [] [] [] [] [] []]; reflexivity. Qed.

Lemma lower_char_idempotent (c : ascii) : lower_char (lower_char c) = lower_char c.
Proof. destruct c as [[] [] [] [] [] [] [] []]; reflexivity. Qed.

Lemma lower_idempotent (s : string) : lower (lower s) = lower s.
Proof.
  induction s as [|c s IH]; [done|]. cbn. now rewrite lower_char_idempotent, IH.
Qed.

Lemma lower_append (s t : string) : lower (s +:+ t) = lower s +:+ lower t.
Proof.
  induction s as [|c s IH]; [done|].
  change (String c s +:+ t) with (String c (s +:+ t)).
  cbn [lower]. rewrite IH. reflexivity.
Qed.

Lemma lower_blank (s : string) : String.eqb (lower s) "" = String.eqb s "".
Proof. now destruct s. Qed.

Lemma split_from_lower (cur text : string) :
  split_from (lower cur) (lower text) = lower <$> split_from cur text.
Proof.
  revert cur. induction text as [|c text IH]; intros cur; cbn [lower split_from].
  - rewrite lower_blank. now destruct (String.eqb cur "").
  - rewrite isspace_lower, lower_blank.
    destruct (isspace c).
    + destruct (String.eqb cur ""); [apply (IH "")|].
      rewrite fmap_cons. f_equal. apply (IH "").
    + rewrite <- IH, lower_append. reflexivity.
Qed.

Lemma lstrip_lower (s : string) :
  lstrip punctuation (lower s) = lower (lstrip punctuation s).
Proof.
  induction s as [|c s IH]; [done|]. cbn [lower lstrip].
  rewrite punctuation_lower. now destruct (mem_char c punctuation).
Qed.

Lemma rstrip_lower (s : string) :
  rstrip punctuation (lower s) = lower (rstrip punctuation s).
Proof.
  induction s as [|c s IH]; [done|]. cbn [lower rstrip].
  rewrite IH, punctuation_lower.
  destruct (rstrip punctuation s); [|done].
  cbn [lower]. now destruct (mem_char c punctuation).
Qed.

Lemma vectorize_lower (text : string) : _vectorize (lower text) = _vectorize text.
Proof.
  assert (Hsplit : split (lower text) = lower <$> split text)
    by apply (split_from_lower "" text).
  unfold _vectorize, strip. rewrite Hsplit, <- list_fmap_compose.
  do 2 f_equal. apply list_fmap_ext. intros _ t _. cbn.
  now rewrite lstrip_lower, rstrip_lower, lower_idempotent.
Qed.

(** The search ignores letter case: two queries that differ in case
    only have the same token counts and find the same entries. *)
Theorem semantic_search_ignores_case (self : MemoryStore)
    (user_id first second : string) (limit : Z) :
  lower first = lower second ->
  _vectorize first = _vectorize second
  /\ semantic_search self user_id first limit
     = semantic_search self user_id second limit.
Proof.
  intros Hsame.
  assert (Hvec : _vectorize first = _vectorize second).
  { now rewrite <- (vectorize_lower first), Hsame, vectorize_lower. }
  split; [exact Hvec|]. unfold semantic_search. now rewrite Hvec.
Qed.

End SearchProperties.

(** ** The memory endpoint *)

Section MemoryEndpoint.
Variable isoformat : Z -> string.

Lemma to_context_length (entries : list MemoryEntry.t) :
  length (to_context isoformat entries) = length entries.
Proof. unfold to_context. apply length_fmap. Qed.

(** For texts of admissible length the memory endpoint answers: its
    reply lists at most ten recent entries and at most five similar
    ones, each rendered by [to_context], and all of them are entries of
    the store that belong to the user asked for. *)
Theorem get_memory_bounded (memory : MemoryStore) (user_id : string) :
  Forall (fun e => fits (MemoryEntry.text e)) (entries memory) ->
  exists shown found,
    get_memory isoformat memory user_id =
      Returns (<["recent" := VList (VDict <$> to_context isoformat shown)]>
               (<["semantic_example" :=
                    VList (VDict <$> to_context isoformat found)]> ∅))
    /\ (length shown <= 10)%nat
    /\ (length found <= 5)%nat
    /\ Forall (fun e => e ∈ entries memory /\ MemoryEntry.user_id e = user_id)
              (shown ++ found).
Proof.
  intros Hes.
  destruct (semantic_search_members memory user_id "sales summary" 5)
    as (scored & Hsearch & Hkept & Hall); [reflexivity|exact Hes|].
  destruct (recent_positive_limit memory user_id 10)
    as (_ & Hlen & Huser & _ & Hsub & _); [lia|].
  exists (recent memory user_id 10), (slice_to (sort_desc scored) 5).*2.
  split; [unfold get_memory; now rewrite Hsearch|].
  split; [lia|].
  split. { rewrite length_fmap, slice_to_nonneg, length_take by lia. lia. }
  apply Forall_app. split.
  - rewrite Forall_forall in Huser |- *. intros e He. split; [|now apply Huser].
    eapply elem_of_sublist; [exact He|exact Hsub].
  - apply Forall_forall. intros e He.
    apply found_among_scored in He as (p & Hp & ->).
    rewrite Forall_forall in Hall. destruct (Hall p Hp) as (_ & _ & Hu).
    split; [|exact Hu].
    assert (Hp2 : p.2 ∈ scored.*2) by (apply list_elem_of_fmap; eauto).
    rewrite Hkept in Hp2. now apply list_elem_of_filter in Hp2 as [_ ?].
Qed.

End MemoryEndpoint.

(** ** The properties above on the sample environment *)

Lemma execute_then_get_task_witness :
  exists response self' w' record,
    first_run = (Returns response, self', w')
    /\ get_task self' (ExecuteResponse.task_id response) = Some record
    /\ TaskRecord.status record = ExecuteResponse.status response
    /\ TaskRecord.outputs record = ExecuteResponse.outputs response.
Proof.
  destruct (execute_then_get_task counter_uuid4 counter_utcnow plain_repr
              (blank_agent working_registry) sales_request 0%nat _ _ _ eq_refl)
    as (record & Hget & _ & _ & _ & Hstatus & _ & Houtputs & _).
  eexists _, _, _, record. split; [reflexivity|]. repeat split; assumption.
Defined.

Lemma execute_keeps_other_tasks_witness :
  get_task second_run.1.2 "task-0" = get_task first_run.1.2 "task-0"
  /\ tools second_run.1.2 = tools first_run.1.2.
Proof.
  apply (execute_keeps_other_tasks counter_uuid4 counter_utcnow plain_repr
           first_run.1.2 sales_request first_run.2
           second_run.1.1 second_run.1.2 second_run.2 "task-0").
  - reflexivity.
  - vm_compute. discriminate.
Defined.

Lemma execute_appends_memory_witness :
  exists added,
    entries (memory second_run.1.2) = entries (memory first_run.1.2) ++ added
    /\ Forall (fun e => MemoryEntry.user_id e = "u-1") added
    /\ length added = 2%nat.
Proof.
  destruct (execute_appends_memory counter_uuid4 counter_utcnow plain_repr
              first_run.1.2 sales_request first_run.2
              second_run.1.1 second_run.1.2 second_run.2 eq_refl)
    as (added & Hmem & Huser & Hlen).
  exists added. split; [exact Hmem|]. split; [exact Huser|exact Hlen].
Defined.

Lemma execute_propagates_exception_witness :
  exists self' record,
    execute counter_uuid4 counter_utcnow plain_repr
      (blank_agent crashing_registry) sales_request 0%nat
      = (Raises "OSError", self', 5%nat)
    /\ get_task self' "task-0" = Some record
    /\ TaskRecord.status record = running
    /\ TaskRecord.outputs record = []
    /\ length (entries (memory self')) = 1%nat.
Proof.
  destruct (execute_propagates_exception counter_uuid4 counter_utcnow plain_repr
              (blank_agent crashing_registry) sales_request 0%nat
              [sql_query_step plain_repr (VStr "2026-W11")]
              (sales_report_step plain_repr (VStr "2026-W11"))
              [email_step (VList [VStr "management@company.com"])]
              [ToolResult.mk "sql_query" true "done" ∅] 5%nat "OSError" 5%nat
              eq_refl eq_refl ltac:(repeat constructor) eq_refl)
    as (self' & record & Hexec & Hget & Hstatus & Houtputs & Hmem).
  exists self', record. repeat split; try assumption. now rewrite Hmem.
Defined.

Lemma execute_unknown_tool_witness :
  exists response self' w',
    execute counter_uuid4 counter_utcnow plain_repr
      (blank_agent partial_registry) sales_request 0%nat
      = (Returns response, self', w')
    /\ ExecuteResponse.status response = failed
    /\ length (ExecuteResponse.outputs response) = 2%nat
    /\ ExecuteResponse.summary response =
         "Task failed during tool `report_generator`: Unknown tool: report_generator".
Proof.
  destruct (execute_unknown_tool counter_uuid4 counter_utcnow plain_repr
              (blank_agent partial_registry) sales_request 0%nat
              [sql_query_step plain_repr (VStr "2026-W11")]
              (sales_report_step plain_repr (VStr "2026-W11"))
              [email_step (VList [VStr "management@company.com"])]
              [ToolResult.mk "sql_query" true "done" ∅] 5%nat
              eq_refl eq_refl ltac:(repeat constructor) eq_refl)
    as (response & self' & Hexec & Hstatus & _ & Hlen & Hsummary).
  exists response, self', 6%nat. repeat split; assumption.
Defined.

Lemma plan_arguments_from_context_witness :
  exists step,
    step ∈ _plan plain_repr (ExecuteRequest.instruction sales_request)
             (ExecuteRequest.context sales_request)
    /\ ActionStep.tool step = "email_sender"
    /\ ActionStep.arguments step !! "to"
       = Some (VList [VStr "management@company.com"]).
Proof.
  exact (proj1 (plan_arguments_from_context plain_repr
                  (ExecuteRequest.instruction sales_request)
                  (ExecuteRequest.context sales_request)) eq_refl).
Defined.

Lemma plan_ignores_case_witness :
  _plan plain_repr "Email the CRM Team" ∅ = _plan plain_repr "EMAIL the crm team" ∅.
Proof.
  exact (plan_ignores_case plain_repr "Email the CRM Team" "EMAIL the crm team" ∅
           eq_refl eq_refl).
Defined.

Lemma build_tools_covers_plans_witness :
  exists registry w',
    sample_build_tools = (Returns registry, w')
    /\ list_tools registry =
         ["crm_update"; "email_sender"; "meeting_summarizer"; "report_generator";
          "sql_query"]
    /\ Forall (fun step => is_Some (_tools registry !! ActionStep.tool step))
         (_plan plain_repr (ExecuteRequest.instruction sales_request)
            (ExecuteRequest.context sales_request)).
Proof.
  eexists _, _. split; [reflexivity|].
  destruct (build_tools_covers_plans plain_repr sample_int_of_str sample_int_of_float
              sample_fetchall sample_insert_crm_update sample_joinpath sample_mkdir
              sample_exists sample_read_text sample_write_text sample_json_loads
              sample_json_dumps sample_ensure_seed_data
              "data/business.db" "data/reports" ∅ _ _ eq_refl) as [Hlist Hplan].
  split; [exact Hlist|]. apply Forall_forall. intros step Hstep.
  exact (Hplan _ _ step Hstep).
Defined.


Lemma sql_query_with_query_witness :
  exists r,
    sql_query_tool sample_fetchall "data/business.db"
      {[ "query" := VStr "SELECT SUM(amount) AS total FROM sales" ]} ∅
      = (Returns r, ∅)
    /\ ToolResult.ok r = true
    /\ ToolResult.payload r !! "rows" = Some (VList [VDict {[ "total" := VInt 1250 ]}])
    /\ ToolResult.payload r !! "count" = Some (VInt 1).
Proof.
  exact (sql_query_with_query sample_fetchall "data/business.db"
           {[ "query" := VStr "SELECT SUM(amount) AS total FROM sales" ]} ∅ eq_refl).
Defined.

Lemma unhandled_reports_share_a_file_witness :
  report_generator_tool plain_repr sample_joinpath sample_write_text "data/reports"
    (ActionStep.arguments (unhandled_step "hello")) ∅
    = (Returns (ToolResult.mk "report_generator" true "Report generated"
                  {[ "path" := VStr "data/reports/unhandled-request.txt" ]}),
       {[ "data/reports/unhandled-request.txt" := unhandled_report "hello" ]})
  /\ report_generator_tool plain_repr sample_joinpath sample_write_text "data/reports"
       (ActionStep.arguments (unhandled_step "good bye"))
       {[ "data/reports/unhandled-request.txt" := unhandled_report "hello" ]}
     = (Returns (ToolResult.mk "report_generator" true "Report generated"
                   {[ "path" := VStr "data/reports/unhandled-request.txt" ]}),
        {[ "data/reports/unhandled-request.txt" := unhandled_report "good bye" ]}).
Proof.
  apply (unhandled_reports_share_a_file plain_repr sample_joinpath sample_write_text
           "data/reports" "data/reports/unhandled-request.txt" "hello" "good bye").
  - reflexivity.
  - unfold sample_write_text. now rewrite insert_empty.
  - unfold sample_write_text. now rewrite insert_singleton_eq.
Defined.

Lemma email_log_must_be_a_list_witness :
  email_sender_tool sample_joinpath sample_exists sample_read_text sample_write_text
    sample_json_loads sample_json_dumps "data/reports" ∅
    {[ "data/reports/email_log.json" := "{}" ]}
  = (Raises "AttributeError", {[ "data/reports/email_log.json" := "{}" ]}).
Proof.
  apply (email_log_must_be_a_list sample_joinpath sample_exists sample_read_text
           sample_write_text sample_json_loads sample_json_dumps
           "data/reports" "data/reports/email_log.json" "{}" ∅ _ _ (VDict ∅)).
  - reflexivity.
  - reflexivity.
  - reflexivity.
  - reflexivity.
  - intros entries. discriminate.
Defined.

Lemma meeting_summary_of_blank_transcript_witness :
  meeting_summarizer_tool sample_int_of_str sample_int_of_float
    {[ "transcript" := VStr " . " ]} 0%nat
  = (Returns (ToolResult.mk "meeting_summarizer" true "Meeting summarized"
                {[ "summary" := VStr "" ]}), 0%nat).
Proof.
  apply (meeting_summary_of_blank_transcript sample_int_of_str sample_int_of_float
           {[ "transcript" := VStr " . " ]} " . " 3 0%nat).
  - reflexivity.
  - reflexivity.
  - intros c Hc. cbn in Hc.
    destruct (Ascii.eqb_spec c " ") as [Hblank|_];
      [right; rewrite Hblank; reflexivity|].
    destruct (Ascii.eqb_spec c ".") as [Hstop|_]; [left; exact Hstop|].
    discriminate Hc.
Defined.

Lemma meeting_summary_is_stable_witness :
  exists summary,
    meeting_summarizer_tool sample_int_of_str sample_int_of_float
      {[ "transcript" := VStr sample_transcript ]} 0%nat
    = (Returns (ToolResult.mk "meeting_summarizer" true "Meeting summarized"
                  {[ "summary" := VStr summary ]}), 0%nat)
    /\ meeting_summarizer_tool sample_int_of_str sample_int_of_float
         (<["transcript" := VStr summary]> {[ "transcript" := VStr sample_transcript ]})
         0%nat
       = meeting_summarizer_tool sample_int_of_str sample_int_of_float
           {[ "transcript" := VStr sample_transcript ]} 0%nat.
Proof.
  apply (meeting_summary_is_stable sample_int_of_str sample_int_of_float
           {[ "transcript" := VStr sample_transcript ]} sample_transcript 3 0%nat).
  - reflexivity.
  - reflexivity.
  - lia.
Defined.

Lemma meeting_summary_of_zero_sentences_witness :
  meeting_summarizer_tool sample_int_of_str sample_int_of_float
    (<["max_sentences" := VInt 0]> {[ "transcript" := VStr sample_transcript ]}) 0%nat
  = (Returns (ToolResult.mk "meeting_summarizer" true "Meeting summarized"
                {[ "summary" := VStr "." ]}), 0%nat).
Proof.
  apply (meeting_summary_of_zero_sentences sample_int_of_str sample_int_of_float
           (<["max_sentences" := VInt 0]> {[ "transcript" := VStr sample_transcript ]})
           sample_transcript 0%nat).
  - reflexivity.
  - reflexivity.
  - vm_compute. discriminate.
Defined.

Lemma execute_with_non_text_transcript_witness :
  exists self',
    execute counter_uuid4 counter_utcnow plain_repr
      (blank_agent meeting_registry) broken_meeting_request 0%nat
    = (Raises "AttributeError", self', 4%nat)
    /\ (exists record, get_task self' "task-0" = Some record
                       /\ TaskRecord.status record = running).
Proof.
  apply (execute_with_non_text_transcript counter_uuid4 counter_utcnow plain_repr
           sample_int_of_str sample_int_of_float
           (blank_agent meeting_registry) broken_meeting_request (VInt 42) 0%nat).
  - reflexivity.
  - reflexivity.
  - reflexivity.
  - reflexivity.
  - intros s. discriminate.
  - reflexivity.
Defined.

Lemma add_then_recent_witness :
  exists older,
    recent (add sample_store (sample_note "u-2" "New lead")) "u-2" 2
      = older ++ [sample_note "u-2" "New lead"]
    /\ older `suffix_of` [sample_note "u-2" "sales summary"].
Proof.
  apply (add_then_recent sample_store (sample_note "u-2" "New lead") 2). lia.
Defined.

Lemma add_keeps_other_users_witness :
  recent (add sample_store (sample_note "u-2" "Sales call")) "u-1" 10
    = recent sample_store "u-1" 10
  /\ semantic_search (add sample_store (sample_note "u-2" "Sales call")) "u-1"
       "sales summary" 5
     = semantic_search sample_store "u-1" "sales summary" 5.
Proof.
  apply (add_keeps_other_users sample_store (sample_note "u-2" "Sales call")
           "u-1" "sales summary" 5).
  discriminate.
Defined.

Lemma recent_negative_limit_witness :
  recent sample_store "u-1" (-1)
  = [sample_note "u-1" "Weekly sales summary"; sample_note "u-1" "Lunch menu";
     sample_note "u-1" "Summary of sales"].
Proof.
  apply (recent_negative_limit sample_store "u-1" (-1)). lia.
Defined.

Lemma semantic_search_without_tokens_witness :
  semantic_search sample_store "u-1" " ?!  ... " 5 = Returns [].
Proof.
  apply (semantic_search_without_tokens sample_store "u-1" " ?!  ... " 5).
  repeat constructor.
Defined.

Lemma semantic_search_shares_token_witness :
  exists found,
    semantic_search sample_store "u-1" "sales summary" 5 = Returns found
    /\ Forall (fun e => e ∈ entries sample_store
                 /\ MemoryEntry.user_id e = "u-1"
                 /\ exists token,
                      is_Some (_vectorize "sales summary" !! token)
                      /\ is_Some (_vectorize (MemoryEntry.text e) !! token)) found.
Proof.
  apply (semantic_search_shares_token sample_store "u-1" "sales summary" 5).
  - reflexivity.
  - repeat constructor.
Defined.

Lemma semantic_search_ignores_case_witness :
  _vectorize "Sales Summary" = _vectorize "sales SUMMARY"
  /\ semantic_search sample_store "u-1" "Sales Summary" 5
     = semantic_search sample_store "u-1" "sales SUMMARY" 5.
Proof.
  apply (semantic_search_ignores_case sample_store "u-1" "Sales Summary"
           "sales SUMMARY" 5).
  reflexivity.
Defined.

Lemma get_memory_bounded_witness :
  exists shown found,
    get_memory sample_isoformat sample_store "u-1" =
      Returns (<["recent" := VList (VDict <$> to_context sample_isoformat shown)]>
               (<["semantic_example" :=
                    VList (VDict <$> to_context sample_isoformat found)]> ∅))
    /\ (length shown <= 10)%nat
    /\ (length found <= 5)%nat
    /\ Forall (fun e => e ∈ entries sample_store /\ MemoryEntry.user_id e = "u-1")
              (shown ++ found).
Proof.
  apply (get_memory_bounded sample_isoformat sample_store "u-1").
  repeat constructor.
Defined.
